(** * File lock of the scrapbook host (webscrapbook/scrapbook/host.py)

    A shallow embedding of [FileLock] and of the part of the operating
    system it talks to, followed by the properties of the lease protocol.

    Conventions of the embedding.
    - Time is an integer number of clock ticks ([Z]); Python's floats are
      not modelled.  [float('inf')] is the deadline [None].
    - The world holds the lock directory and the one lease file that
      [self.file] names.  Every lock object run against a world is a handle
      on that same file, as are the other processes of the [script].
    - A system call is atomic.  Whatever other processes do, and the time
      that passes, happens between system calls: each call first consumes
      one [Event] of the world's [script].
    - Python exceptions are values: a method returns [Return v] or
      [Raise e], together with the lock object and the world it leaves. *)

From Stdlib Require Import ZArith NArith String Ascii List Bool Lia.
Import ListNotations.

Open Scope Z_scope.

(** ** Exceptions *)

Inductive OSError : Type :=
| FileExistsError
| FileNotFoundError
| PermissionError.   (* any OSError that is neither of the two above *)

Inductive LockErrorClass : Type :=
| LockError
| LockAcquireError
| LockTimeoutError
| LockGenerateError
| LockRegenerateError
| LockPersistError
| LockPersistOSError
| LockPersistUnmatchError
| LockExtendError
| LockExtendNotAcquiredError
| LockExtendNotFoundError
| LockReleaseError
| LockReleaseNotAcquiredError
| LockReleaseNotFoundError.

(** The base class of each exception class ([None]: [Exception]). *)
Definition base (c : LockErrorClass) : option LockErrorClass :=
  match c with
  | LockError => None
  | LockAcquireError => Some LockError
  | LockTimeoutError => Some LockAcquireError
  | LockGenerateError => Some LockAcquireError
  | LockRegenerateError => Some LockGenerateError
  | LockPersistError => Some LockAcquireError
  | LockPersistOSError => Some LockPersistError
  | LockPersistUnmatchError => Some LockPersistError
  | LockExtendError => Some LockError
  | LockExtendNotAcquiredError => Some LockExtendError
  | LockExtendNotFoundError => Some LockExtendError
  | LockReleaseError => Some LockError
  | LockReleaseNotAcquiredError => Some LockReleaseError
  | LockReleaseNotFoundError => Some LockReleaseError
  end.

Definition class_eqb (a b : LockErrorClass) : bool :=
  match a, b with
  | LockError, LockError
  | LockAcquireError, LockAcquireError
  | LockTimeoutError, LockTimeoutError
  | LockGenerateError, LockGenerateError
  | LockRegenerateError, LockRegenerateError
  | LockPersistError, LockPersistError
  | LockPersistOSError, LockPersistOSError
  | LockPersistUnmatchError, LockPersistUnmatchError
  | LockExtendError, LockExtendError
  | LockExtendNotAcquiredError, LockExtendNotAcquiredError
  | LockExtendNotFoundError, LockExtendNotFoundError
  | LockReleaseError, LockReleaseError
  | LockReleaseNotAcquiredError, LockReleaseNotAcquiredError
  | LockReleaseNotFoundError, LockReleaseNotFoundError => true
  | _, _ => false
  end.

(** [issubclass c d]: the hierarchy is four classes deep. *)
Fixpoint issubclass_upto (depth : nat) (c d : LockErrorClass) : bool :=
  class_eqb c d
  || match depth, base c with
     | S k, Some b => issubclass_upto k b d
     | _, _ => false
     end.

Definition issubclass : LockErrorClass -> LockErrorClass -> bool :=
  issubclass_upto 4.

(** What [LockError.__init__] stores. *)
Record LockErrorArgs : Type := mkArgs {
  err_msg : string;
  err_name : option string;
  err_file : option string;
  err_id : option string
}.

Inductive exn : Type :=
| Lock (c : LockErrorClass) (a : LockErrorArgs)
| NameError (var : string)     (* an unbound variable was read *)
| ValueError.                  (* time.sleep of a negative length *)

Inductive outcome (A : Type) : Type :=
| Return (a : A)
| Raise (e : exn).
Arguments Return {A} a.
Arguments Raise {A} e.

(** [isinstance e c] for the lock errors. *)
Definition isinstance (e : exn) (c : LockErrorClass) : bool :=
  match e with
  | Lock c' _ => issubclass c' c
  | _ => false
  end.

Definition raises {A} (r : outcome A) (c : LockErrorClass) : bool :=
  match r with
  | Raise e => isinstance e c
  | Return _ => false
  end.

(** ** The world: lock directory, lease file, clock, other processes *)

(** The lease file: its content and its modification time. *)
Record File : Type := mkFile {
  content : string;
  st_mtime : Z
}.

Inductive FS : Type :=
| NoDir                       (* the lock directory does not exist *)
| Dir (f : option File).      (* it exists, with or without the lease file *)

(** What happens between two system calls of the program. *)
Inductive Event : Type :=
| Idle                  (* nothing *)
| Pass (d : N)          (* [d] ticks go by *)
| Unlink                (* another holder releases: the file is removed *)
| Claim (tok : string)  (* another process writes its token into the file *)
| Refresh               (* another holder extends: mtime becomes now *)
| Fault.                (* the coming file operation fails with an OSError
                           that is neither exists nor not-found *)

Inductive Call : Type :=
| time_time
| time_sleep (d : Z)
| os_makedirs
| open_x (tok : string)   (* open(file, 'x') and write *)
| open_w (tok : string)   (* open(file, 'w') and write *)
| open_r                  (* open(file) and read *)
| os_stat
| os_utime
| os_remove
| token_urlsafe
| Thread_start.

Record World : Type := mkWorld {
  fs : FS;
  clock : Z;
  script : list Event;     (* one event before each coming system call *)
  calls : list Call;       (* the calls made so far, latest first *)
  entropy : nat -> string; (* the tokens the random source will give *)
  drawn : nat;             (* how many of them were taken *)
  threads : nat            (* how many threads were started *)
}.

Definition lapse (e : Event) : Z :=
  match e with
  | Pass d => Z.of_N d
  | _ => 0
  end.

Definition faulty (e : Event) : bool :=
  match e with
  | Fault => true
  | _ => false
  end.

Definition disturb (e : Event) (now : Z) (s : FS) : FS :=
  match e, s with
  | Unlink, Dir (Some _) => Dir None
  | Claim tok, _ => Dir (Some (mkFile tok now))
  | Refresh, Dir (Some f) => Dir (Some (mkFile (content f) now))
  | _, _ => s
  end.

(** Entering a system call: the next event of the script happens, the call
    is logged.  The boolean tells a file operation that it must fail. *)
Definition enter (c : Call) (w : World) : bool * World :=
  let e := hd Idle (script w) in
  let now := clock w + lapse e in
  (faulty e,
   mkWorld (disturb e now (fs w)) now (tl (script w)) (c :: calls w)
           (entropy w) (drawn w) (threads w)).

Definition set_fs (s : FS) (w : World) : World :=
  mkWorld s (clock w) (script w) (calls w) (entropy w) (drawn w) (threads w).

Definition sys_time (w : World) : Z * World :=
  let (_, w1) := enter time_time w in (clock w1, w1).

(** time.sleep: a negative length is a ValueError, raised before sleeping. *)
Definition sys_sleep (d : Z) (w : World) : outcome unit * World :=
  if d <? 0 then (Raise ValueError, w)
  else
    let (_, w1) := enter (time_sleep d) w in
    (Return tt,
     mkWorld (fs w1) (clock w1 + d) (script w1) (calls w1)
             (entropy w1) (drawn w1) (threads w1)).

Definition sys_makedirs (w : World) : (OSError + unit) * World :=
  let (bad, w1) := enter os_makedirs w in
  if bad then (inl PermissionError, w1)
  else match fs w1 with
       | NoDir => (inr tt, set_fs (Dir None) w1)
       | Dir _ => (inl FileExistsError, w1)
       end.

Definition sys_open_x (tok : string) (w : World) : (OSError + unit) * World :=
  let (bad, w1) := enter (open_x tok) w in
  if bad then (inl PermissionError, w1)
  else match fs w1 with
       | NoDir => (inl FileNotFoundError, w1)
       | Dir (Some _) => (inl FileExistsError, w1)
       | Dir None => (inr tt, set_fs (Dir (Some (mkFile tok (clock w1)))) w1)
       end.

Definition sys_open_w (tok : string) (w : World) : (OSError + unit) * World :=
  let (bad, w1) := enter (open_w tok) w in
  if bad then (inl PermissionError, w1)
  else match fs w1 with
       | NoDir => (inl FileNotFoundError, w1)
       | Dir _ => (inr tt, set_fs (Dir (Some (mkFile tok (clock w1)))) w1)
       end.

Definition sys_open_r (w : World) : (OSError + string) * World :=
  let (bad, w1) := enter open_r w in
  if bad then (inl PermissionError, w1)
  else match fs w1 with
       | Dir (Some f) => (inr (content f), w1)
       | _ => (inl FileNotFoundError, w1)
       end.

Definition sys_stat (w : World) : (OSError + Z) * World :=
  let (bad, w1) := enter os_stat w in
  if bad then (inl PermissionError, w1)
  else match fs w1 with
       | Dir (Some f) => (inr (st_mtime f), w1)
       | _ => (inl FileNotFoundError, w1)
       end.

Definition sys_utime (w : World) : (OSError + unit) * World :=
  let (bad, w1) := enter os_utime w in
  if bad then (inl PermissionError, w1)
  else match fs w1 with
       | Dir (Some f) =>
           (inr tt, set_fs (Dir (Some (mkFile (content f) (clock w1)))) w1)
       | _ => (inl FileNotFoundError, w1)
       end.

Definition sys_remove (w : World) : (OSError + unit) * World :=
  let (bad, w1) := enter os_remove w in
  if bad then (inl PermissionError, w1)
  else match fs w1 with
       | Dir (Some _) => (inr tt, set_fs (Dir None) w1)
       | _ => (inl FileNotFoundError, w1)
       end.

(** secrets.token_urlsafe(): the next token of the random source. *)
Definition sys_token_urlsafe (w : World) : string * World :=
  (entropy w (drawn w),
   mkWorld (fs w) (clock w) (script w) (token_urlsafe :: calls w)
           (entropy w) (S (drawn w)) (threads w)).

(** Thread(...).start(): the handle of a thread is its number. *)
Definition sys_thread_start (w : World) : nat * World :=
  (threads w,
   mkWorld (fs w) (clock w) (script w) (Thread_start :: calls w)
           (entropy w) (drawn w) (S (threads w))).

(** ** Host and FileLock *)

(** Of [Host], the lock only reads [host.locks]. *)
Record Host : Type := mkHost {
  locks : string
}.

Definition path_join (a b : string) : string := (a ++ "/" ++ b)%string.

Definition dquote : string := String "034"%char EmptyString.

(** The text of [f'... "{s}"']. *)
Definition lock_msg (before s after : string) : string :=
  (before ++ dquote ++ s ++ dquote ++ after)%string.

(** [if persist:] holds for a non-empty string; the default is [False]. *)
Definition truthy (persist : option string) : bool :=
  match persist with
  | Some (String _ _) => true
  | _ => false
  end.

(** [t >= timeout_time], where [None] is float('inf'). *)
Definition expired (t : Z) (timeout_time : option Z) : bool :=
  match timeout_time with
  | Some d => d <=? t
  | None => false
  end.

Module FileLock.

Record t : Type := mk {
  host : Host;
  name : string;
  timeout : Z;
  stale : Z;
  file : string;
  _keeper : option nat;
  id : string;
  _lock : bool
}.

Definition set_lock (b : bool) (self : t) : t :=
  mk (host self) (name self) (timeout self) (stale self) (file self)
     (_keeper self) (id self) b.

Definition set_keeper (k : option nat) (self : t) : t :=
  mk (host self) (name self) (timeout self) (stale self) (file self)
     k (id self) (_lock self).

(** [raise cls(msg, name=self.name, file=self.file)] *)
Definition error (c : LockErrorClass) (msg : string) (self : t) : exn :=
  Lock c (mkArgs msg (Some (name self)) (Some (file self)) None).

Section Init.

(** [util.encrypt(name, method="md5")] lives in another module. *)
Variable encrypt : string -> string.

(** [FileLock.__init__] *)
Definition init (h : Host) (nm : string) (tmo stl : Z)
    (persist : option string) (w : World) : outcome t * World :=
  let f := path_join (locks h) (encrypt nm ++ ".lock")%string in
  if truthy persist then
    let p := match persist with Some s => s | None => EmptyString end in
    match sys_open_r w with
    | (inl _, w1) =>
        (Raise (Lock LockPersistOSError
                  (mkArgs (lock_msg "unable to access lock file for " nm "")
                          (Some nm) (Some f) (Some p))), w1)
    | (inr c, w1) =>
        if String.eqb c p then
          (Return (mk h nm tmo stl f None p true), w1)
        else
          (Raise (Lock LockPersistUnmatchError
                    (mkArgs (lock_msg "unable to persist lock " nm
                                      " with given ID")
                            (Some nm) (Some f) (Some p))), w1)
    end
  else
    let (tok, w1) := sys_token_urlsafe w in
    (Return (mk h nm tmo stl f None tok false), w1).

End Init.

(** [locked] *)
Definition locked (self : t) : bool := _lock self.

(** How one turn of the [while True] loop of [acquire] ends. *)
Inductive Turn : Type :=
| Break (w : World)            (* the file is ours *)
| Continue (w : World)         (* go round again *)
| Throw (e : exn) (w : World).

Definition generate_error (self : t) : exn :=
  error LockGenerateError (lock_msg "unable to create lock " (name self) "")
        self.

Definition timeout_error (self : t) : exn :=
  error LockTimeoutError
        (lock_msg "timeout when acquiring lock " (name self) "") self.

(** The body of the loop, lines 171 to 208. *)
Definition poll (self : t) (timeout_time : option Z) (poll_interval : Z)
    (w : World) : Turn :=
  match sys_open_x (id self) w with
  | (inr tt, w1) => Break w1
  | (inl FileExistsError, w1) =>
      let (now, w2) := sys_time w1 in
      if expired now timeout_time then
        Throw (timeout_error self) w2
      else
        match sys_stat w2 with
        | (inl FileNotFoundError, w3) => Continue w3
        | (inl _, w3) => Throw (generate_error self) w3
        | (inr mtime, w3) =>
            let stale_time := mtime + stale self in
            if stale_time <=? now then
              match sys_open_w (id self) w3 with
              | (inl _, w4) =>
                  Throw (error LockRegenerateError
                           (lock_msg "unable to regenerate stale lock "
                                     (name self) "")
                           self) w4
              | (inr tt, w4) => Break w4
              end
            else
              match sys_sleep poll_interval w3 with
              | (Raise e, w4) => Throw e w4
              | (Return tt, w4) => Continue w4
              end
        end
  | (inl _, w1) => Throw (generate_error self) w1
  end.

(** The loop; [None] when [fuel] turns were not enough. *)
Fixpoint acquire_loop (fuel : nat) (self : t) (timeout_time : option Z)
    (poll_interval : Z) (w : World) : option (outcome unit * World) :=
  match fuel with
  | O => None
  | S k =>
      match poll self timeout_time poll_interval w with
      | Break w1 => Some (Return tt, w1)
      | Throw e w1 => Some (Raise e, w1)
      | Continue w1 => acquire_loop k self timeout_time poll_interval w1
      end
  end.

(** Line 160: the clock is read only when [timeout >= 0]. *)
Definition deadline (tmo : Z) (w : World) : option Z * World :=
  if 0 <=? tmo then
    let (now, w1) := sys_time w in (Some (now + tmo), w1)
  else (None, w).

(** [acquire(timeout, poll_interval)].  The value returned is the proxy,
    which holds nothing but the lock object itself. *)
Definition acquire (fuel : nat) (self : t) (tmo : option Z)
    (poll_interval : Z) (w : World) : option (outcome unit * t * World) :=
  if _lock self then Some (Return tt, self, w)
  else
    let tmo := match tmo with Some x => x | None => timeout self end in
    let (timeout_time, w1) := deadline tmo w in
    match sys_makedirs w1 with
    | (inl PermissionError, w2) | (inl FileNotFoundError, w2) =>
        (* line 167 formats the message with [name], which is bound
           neither in [acquire] nor in the module *)
        Some (Raise (NameError "name"), self, w2)
    | (_, w2) =>
        match acquire_loop fuel self timeout_time poll_interval w2 with
        | None => None
        | Some (Return tt, w3) => Some (Return tt, set_lock true self, w3)
        | Some (Raise e, w3) => Some (Raise e, self, w3)
        end
    end.

(** [extend()] *)
Definition extend (self : t) (w : World) : outcome unit * t * World :=
  if negb (_lock self) then
    (Raise (error LockExtendNotAcquiredError
              (lock_msg "lock " (name self) " has not been acquired") self),
     self, w)
  else
    match sys_utime w with
    | (inr tt, w1) => (Return tt, self, w1)
    | (inl FileNotFoundError, w1) =>
        (Raise (error LockExtendNotFoundError
                  (lock_msg "file for lock " (name self) " does not exist")
                  self), self, w1)
    | (inl _, w1) =>
        (Raise (error LockExtendError
                  (lock_msg "unable to extend lock " (name self) "") self),
         self, w1)
    end.

(** [release()] *)
Definition release (self : t) (w : World) : outcome unit * t * World :=
  if negb (_lock self) then
    (Raise (error LockReleaseNotAcquiredError
              (lock_msg "lock " (name self) " has not been acquired") self),
     self, w)
  else
    match sys_remove w with
    | (inr tt, w1) => (Return tt, set_lock false self, w1)
    | (inl FileNotFoundError, w1) =>
        (Raise (error LockReleaseNotFoundError
                  (lock_msg "file for lock " (name self) " does not exist")
                  self), self, w1)
    | (inl _, w1) =>
        (Raise (error LockReleaseError
                  (lock_msg "unable to release lock " (name self) "") self),
         self, w1)
    end.

(** [keep()]: the handle of the keeper thread, or [None]. *)
Definition keep (self : t) (w : World) : option nat * t * World :=
  match _keeper self with
  | Some k => (Some k, self, w)
  | None =>
      if negb (_lock self) then (None, self, w)
      else
        let (k, w1) := sys_thread_start w in
        (Some k, set_keeper (Some k) self, w1)
  end.

(** One turn of the loop of [_extend], the body of the keeper thread:
    [Return true] when the thread goes on, [Return false] when it ends. *)
Definition _extend_turn (self : t) (w : World)
    : outcome bool * t * World :=
  match sys_sleep (stale self / 5) w with
  | (Raise e, w1) => (Raise e, self, w1)
  | (Return tt, w1) =>
      if negb (_lock self) then (Return false, set_keeper None self, w1)
      else
        match extend self w1 with
        | (Return tt, self1, w2) => (Return true, self1, w2)
        | (Raise e, self1, w2) => (Raise e, self1, w2)
        end
  end.

End FileLock.

(** [_FileLockAcquireProxy] *)
Module Proxy.

Definition enter (lock : FileLock.t) (w : World) : FileLock.t * World :=
  let '(_, lock1, w1) := FileLock.keep lock w in (lock1, w1).

Definition exit (lock : FileLock.t) (w : World)
    : outcome unit * FileLock.t * World :=
  if FileLock.locked lock then FileLock.release lock w
  else (Return tt, lock, w).

End Proxy.

(** ** Undisturbed runs *)

(** An event that leaves the file alone and makes no call fail. *)
Definition calm (e : Event) : bool :=
  match e with
  | Idle | Pass _ => true
  | _ => false
  end.

(** Nobody else touches the lease file, and no call fails for an outside
    reason, from now on.  Time still passes. *)
Definition quiet (w : World) : Prop := forallb calm (script w) = true.

(** The world just after the call [c] was entered. *)
Definition after (c : Call) (w : World) : World := snd (enter c w).

(** The ticks that go by during the first [n] coming calls. *)
Fixpoint elapsed (n : nat) (l : list Event) : Z :=
  match n, l with
  | S k, e :: l' => lapse e + elapsed k l'
  | _, _ => 0
  end.

(** What the clock shows once [n] more calls were entered (none of them a
    sleep). *)
Definition now_after (n : nat) (w : World) : Z :=
  clock w + elapsed n (script w).

(** Does the lease file exist? *)
Definition lease (w : World) : option File :=
  match fs w with
  | Dir (Some f) => Some f
  | _ => None
  end.

(** ** Scenarios *)

Definition tokens (n : nat) : string :=
  nth n ["tokA"; "tokB"; "tokC"]%string "tokZ"%string.

Definition host0 : Host := mkHost "/srv/book/.wsb/locks".

(** A stand-in for the md5 digest in the scenarios. *)
Definition digest0 (s : string) : string := ("md5-" ++ s)%string.

Definition world0 (s : FS) (now : Z) (sc : list Event) : World :=
  mkWorld s now sc [] tokens 0 0.

(** A lock object for "job1", timeout 5000 ticks, stale after 60000. *)
Definition lock0 (tok : string) (held : bool) : FileLock.t :=
  FileLock.mk host0 "job1" 5000 60000
              (path_join (locks host0) (digest0 "job1" ++ ".lock")%string)
              None tok held.

(** ** The keeper thread as a whole *)

Module Keeper.

(** [FileLock._extend], the loop of the keeper thread run on its own;
    [None] when the thread is still running after [fuel] turns. *)
Fixpoint _extend (fuel : nat) (self : FileLock.t) (w : World)
    : option (outcome unit * FileLock.t * World) :=
  match fuel with
  | O => None
  | S k =>
      match FileLock._extend_turn self w with
      | (Return true, self1, w1) => _extend k self1 w1
      | (Return false, self1, w1) => Some (Return tt, self1, w1)
      | (Raise e, self1, w1) => Some (Raise e, self1, w1)
      end
  end.

(** The world after [n] turns of the keeper thread. *)
Fixpoint world_after (n : nat) (self : FileLock.t) (w : World) : World :=
  match n with
  | O => w
  | S k =>
      let '(_, self1, w1) := FileLock._extend_turn self w in
      world_after k self1 w1
  end.

End Keeper.

(** ** BooksProxy *)

Module BooksProxy.

Section Books.

(** [Book] and its constructor [Book(host, key)] live in another module. *)
Variable Book : Type.
Variable new_book : Host -> string -> Book.

(** A value of [self.data]: the placeholder or a book. *)
Inductive slot : Type :=
| NotImplemented
| Made (b : Book).

(** [self.data], a dict: keys in insertion order, each once. *)
Definition dict : Type := list (string * slot).

Record t : Type := mk {
  data : dict;
  host : Host
}.

(** [d[key]]; [None] is KeyError. *)
Fixpoint dict_get (d : dict) (key : string) : option slot :=
  match d with
  | [] => None
  | (k, v) :: rest => if String.eqb k key then Some v else dict_get rest key
  end.

(** [d[key] = v]: a key that is there keeps its place. *)
Fixpoint dict_set (d : dict) (key : string) (v : slot) : dict :=
  match d with
  | [] => [(key, v)]
  | (k, x) :: rest =>
      if String.eqb k key then (k, v) :: rest
      else (k, x) :: dict_set rest key v
  end.

Definition keys (d : dict) : list string := map fst d.

(** [BooksProxy.__init__]; [book_ids] is what iterating over
    [host.config['book']] gives. *)
Definition init (h : Host) (book_ids : list string) : t :=
  mk (fold_left (fun d book_id => dict_set d book_id NotImplemented)
                book_ids [])
     h.

Inductive KeyError : Type :=
| key_error (key : string).

(** [BooksProxy.__getitem__] *)
Definition getitem (self : t) (key : string) : (KeyError + Book) * t :=
  match dict_get (data self) key with
  | None => (inl (key_error key), self)
  | Some NotImplemented =>
      let rv := new_book (host self) key in
      (inr rv, mk (dict_set (data self) key (Made rv)) (host self))
  | Some (Made rv) => (inr rv, self)
  end.

End Books.

End BooksProxy.

(** ** Host.get_static_file *)

Section StaticFiles.

(** [os.path.join] and [os.path.isfile], the latter on the file system as
    it is during the call. *)
Variable join : string -> string -> string.
Variable isfile : string -> bool.

(** [Host.get_static_file]; [statics] is [self.statics]. *)
Fixpoint get_static_file (statics : list string) (filepath : string)
    : option string :=
  match statics with
  | [] => None
  | i :: rest =>
      let file := join i filepath in
      if isfile file then Some file else get_static_file rest filepath
  end.

End StaticFiles.

(* ------------------------------------------------------------------ *)
(** * Properties *)

(** ** Entering a call in a quiet world *)

Lemma quiet_enter (c : Call) (w : World) :
  quiet w -> enter c w = (false, after c w).
Proof.
  unfold quiet, after, enter. destruct (script w) as [|e l]; simpl.
  - reflexivity.
  - destruct e; simpl; intros H; try discriminate H; reflexivity.
Qed.

Lemma quiet_after (c : Call) (w : World) : quiet w -> quiet (after c w).
Proof.
  unfold quiet, after, enter. simpl.
  destruct (script w) as [|e l]; simpl; [reflexivity|].
  intros H. apply andb_true_iff in H. apply H.
Qed.

Lemma fs_after (c : Call) (w : World) : quiet w -> fs (after c w) = fs w.
Proof.
  unfold quiet, after, enter. simpl.
  destruct (script w) as [|e l]; simpl.
  - destruct (fs w) as [|[f|]]; reflexivity.
  - destruct e; simpl; intros H; try discriminate H;
      destruct (fs w) as [|[f|]]; reflexivity.
Qed.

Lemma calls_after (c : Call) (w : World) : calls (after c w) = c :: calls w.
Proof. reflexivity. Qed.

Lemma elapsed_S (n : nat) (l : list Event) :
  elapsed (S n) l = lapse (hd Idle l) + elapsed n (tl l).
Proof. destruct l as [|e l]; simpl; [destruct n|]; reflexivity. Qed.

Lemma now_after_0 (w : World) : now_after 0 w = clock w.
Proof. unfold now_after. simpl. lia. Qed.

Lemma now_after_after (n : nat) (c : Call) (w : World) :
  now_after n (after c w) = now_after (S n) w.
Proof.
  unfold now_after. rewrite elapsed_S. unfold after, enter. simpl. lia.
Qed.

Lemma clock_after (c : Call) (w : World) :
  clock (after c w) = now_after 1 w.
Proof. rewrite <- (now_after_after 0 c w). apply eq_sym, now_after_0. Qed.

Lemma lapse_nonneg (e : Event) : 0 <= lapse e.
Proof. destruct e; simpl; lia. Qed.

Lemma elapsed_nonneg (n : nat) (l : list Event) : 0 <= elapsed n l.
Proof.
  revert l. induction n as [|n IH]; intros [|e l]; simpl; try lia.
  pose proof (lapse_nonneg e). pose proof (IH l). lia.
Qed.

(** The clock never runs backwards: a later reading is no smaller. *)
Lemma now_after_mono (n m : nat) (w : World) :
  (n <= m)%nat -> now_after n w <= now_after m w.
Proof.
  unfold now_after. intros H. apply Z.add_le_mono_l.
  revert m H. generalize (script w). induction n as [|n IH]; intros l m H.
  - simpl. apply elapsed_nonneg.
  - destruct m as [|m]; [lia|]. destruct l as [|e l]; simpl; [lia|].
    apply Z.add_le_mono_l. apply IH. lia.
Qed.

(** ** The system calls in a quiet world *)

Lemma sys_time_eq (w : World) :
  sys_time w = (clock (after time_time w), after time_time w).
Proof. reflexivity. Qed.

Lemma makedirs_quiet (w : World) (f : option File) :
  quiet w -> fs w = Dir f ->
  sys_makedirs w = (inl FileExistsError, after os_makedirs w).
Proof.
  intros Q F. unfold sys_makedirs. rewrite (quiet_enter _ _ Q).
  rewrite (fs_after _ _ Q), F. reflexivity.
Qed.

Lemma open_x_quiet_exists (tok : string) (w : World) (f : File) :
  quiet w -> fs w = Dir (Some f) ->
  sys_open_x tok w = (inl FileExistsError, after (open_x tok) w).
Proof.
  intros Q F. unfold sys_open_x. rewrite (quiet_enter _ _ Q).
  rewrite (fs_after _ _ Q), F. reflexivity.
Qed.

Lemma stat_quiet (w : World) (f : File) :
  quiet w -> fs w = Dir (Some f) ->
  sys_stat w = (inr (st_mtime f), after os_stat w).
Proof.
  intros Q F. unfold sys_stat. rewrite (quiet_enter _ _ Q).
  rewrite (fs_after _ _ Q), F. reflexivity.
Qed.

Lemma open_w_quiet (tok : string) (w : World) (f : option File) :
  quiet w -> fs w = Dir f ->
  sys_open_w tok w =
  (inr tt,
   set_fs (Dir (Some (mkFile tok (clock (after (open_w tok) w)))))
          (after (open_w tok) w)).
Proof.
  intros Q F. unfold sys_open_w. rewrite (quiet_enter _ _ Q).
  rewrite (fs_after _ _ Q), F. reflexivity.
Qed.

Lemma utime_quiet (w : World) (f : File) :
  quiet w -> fs w = Dir (Some f) ->
  sys_utime w =
  (inr tt,
   set_fs (Dir (Some (mkFile (content f) (clock (after os_utime w)))))
          (after os_utime w)).
Proof.
  intros Q F. unfold sys_utime. rewrite (quiet_enter _ _ Q).
  rewrite (fs_after _ _ Q), F. reflexivity.
Qed.

(** ** C1: a stale lease is taken over *)

Lemma pair_snd {A B : Type} (p : A * B) (a : A) (b : B) :
  p = (a, b) -> p = (a, snd p).
Proof. intros E. now rewrite E. Qed.

Lemma deadline_quiet (tm : Z) (w : World) :
  quiet w ->
  quiet (snd (FileLock.deadline tm w))
  /\ fs (snd (FileLock.deadline tm w)) = fs w
  /\ calls (snd (FileLock.deadline tm w))
     = (if 0 <=? tm then [time_time] else []) ++ calls w.
Proof.
  intros Q. unfold FileLock.deadline. destruct (0 <=? tm).
  - rewrite sys_time_eq. cbn [snd]. split; [apply quiet_after, Q|].
    split; [apply fs_after, Q | reflexivity].
  - cbn [snd]. auto.
Qed.

(** C1.  The lock object is not Held, the lease file exists, nobody else
    touches it, the deadline computed on line 160 has not passed when the
    loop reads the clock ([now], line 175), and the file is stale then
    ([now >= st_mtime + stale]).  Then [acquire] returns and the object is
    Held.  The worlds it goes through are those left by the deadline
    computation, makedirs, the exclusive create that fails, the clock
    reading, stat, and the plain [open(file, 'w')]: in everyone before the
    write the file is there as it was, after the write it is there with
    this object's token; the file is never absent. *)
Theorem acquire_reclaims_stale_lease
    (fuel : nat) (self : FileLock.t) (tmo : option Z) (poll_interval : Z)
    (w : World) (f : File) :
  let tm := match tmo with Some x => x | None => FileLock.timeout self end in
  let dl := fst (FileLock.deadline tm w) in
  let w1 := snd (FileLock.deadline tm w) in
  let w2 := snd (sys_makedirs w1) in
  let w3 := snd (sys_open_x (FileLock.id self) w2) in
  let now := fst (sys_time w3) in
  let w4 := snd (sys_time w3) in
  let w5 := snd (sys_stat w4) in
  let w6 := snd (sys_open_w (FileLock.id self) w5) in
  FileLock._lock self = false ->
  fs w = Dir (Some f) ->
  quiet w ->
  expired now dl = false ->
  st_mtime f + FileLock.stale self <= now ->
  FileLock.acquire (S fuel) self tmo poll_interval w
  = Some (Return tt, FileLock.set_lock true self, w6)
  /\ (forall v, In v [w; w1; w2; w3; w4; w5] -> fs v = Dir (Some f))
  /\ fs w6 = Dir (Some (mkFile (FileLock.id self) (clock w6)))
  /\ calls w6
     = [open_w (FileLock.id self); os_stat; time_time;
        open_x (FileLock.id self); os_makedirs]
       ++ (if 0 <=? tm then [time_time] else []) ++ calls w.
Proof.
  intros tm dl w1 w2 w3 now w4 w5 w6 L F Q E S.
  destruct (deadline_quiet tm w Q) as (Q1 & F1 & C1).
  fold w1 in Q1, F1, C1. rewrite F in F1.
  pose proof (pair_snd _ _ _ (makedirs_quiet w1 _ Q1 F1)) as M.
  fold w2 in M.
  assert (W2 : w2 = after os_makedirs w1)
    by (unfold w2; now rewrite (makedirs_quiet w1 _ Q1 F1)).
  assert (Q2 : quiet w2) by (rewrite W2; apply quiet_after, Q1).
  assert (F2 : fs w2 = Dir (Some f)) by (rewrite W2, fs_after; auto).
  pose proof (pair_snd _ _ _ (open_x_quiet_exists (FileLock.id self) w2 f Q2 F2))
    as X.
  fold w3 in X.
  assert (W3 : w3 = after (open_x (FileLock.id self)) w2)
    by (unfold w3; now rewrite (open_x_quiet_exists _ w2 f Q2 F2)).
  assert (Q3 : quiet w3) by (rewrite W3; apply quiet_after, Q2).
  assert (F3 : fs w3 = Dir (Some f)) by (rewrite W3, fs_after; auto).
  assert (T : sys_time w3 = (now, w4)) by reflexivity.
  assert (W4 : w4 = after time_time w3) by reflexivity.
  assert (Q4 : quiet w4) by (rewrite W4; apply quiet_after, Q3).
  assert (F4 : fs w4 = Dir (Some f)) by (rewrite W4, fs_after; auto).
  pose proof (pair_snd _ _ _ (stat_quiet w4 f Q4 F4)) as St.
  fold w5 in St.
  assert (W5 : w5 = after os_stat w4)
    by (unfold w5; now rewrite (stat_quiet w4 f Q4 F4)).
  assert (Q5 : quiet w5) by (rewrite W5; apply quiet_after, Q4).
  assert (F5 : fs w5 = Dir (Some f)) by (rewrite W5, fs_after; auto).
  pose proof (pair_snd _ _ _ (open_w_quiet (FileLock.id self) w5 _ Q5 F5))
    as Wr.
  fold w6 in Wr.
  assert (W6 : w6 = set_fs (Dir (Some (mkFile (FileLock.id self)
                                         (clock (after (open_w (FileLock.id self)) w5)))))
                           (after (open_w (FileLock.id self)) w5))
    by (unfold w6; now rewrite (open_w_quiet _ w5 _ Q5 F5)).
  split; [|split; [|split]].
  - unfold FileLock.acquire. rewrite L. fold tm.
    rewrite (surjective_pairing (FileLock.deadline tm w)). fold dl w1.
    rewrite M. cbn [FileLock.acquire_loop]. unfold FileLock.poll.
    rewrite X, T, E, St. apply Z.leb_le in S. rewrite S, Wr. reflexivity.
  - intros v [<-|[<-|[<-|[<-|[<-|[<-|[]]]]]]]; assumption.
  - rewrite W6. reflexivity.
  - rewrite W6. cbn [calls set_fs]. rewrite calls_after, W5, calls_after,
      W4, calls_after, W3, calls_after, W2, calls_after, C1. reflexivity.
Qed.

Lemma acquire_reclaims_stale_lease_witness :
  let w := world0 (Dir (Some (mkFile "tokA" 0))) 61000 [Pass 3; Idle; Pass 2] in
  let self := lock0 "tokB" false in
  let w6 :=
    mkWorld (Dir (Some (mkFile "tokB" 61005))) 61005 []
            [open_w "tokB"; os_stat; time_time; open_x "tokB"; os_makedirs;
             time_time]
            tokens 0 0 in
  FileLock._lock self = false
  /\ fs w = Dir (Some (mkFile "tokA" 0))
  /\ quiet w
  /\ expired 61005 (Some 66003) = false
  /\ 0 + 60000 <= 61005
  /\ FileLock.acquire 1 self None 100 w = Some (Return tt, lock0 "tokB" true, w6).
Proof.
  intros w self w6.
  assert (H1 : FileLock._lock self = false) by reflexivity.
  assert (H2 : fs w = Dir (Some (mkFile "tokA" 0))) by reflexivity.
  assert (H3 : quiet w) by reflexivity.
  assert (H4 : expired 61005 (Some 66003) = false) by reflexivity.
  assert (H5 : 0 + 60000 <= 61005) by lia.
  repeat (split; [assumption|]).
  exact (proj1 (acquire_reclaims_stale_lease 0 self None 100 w _
                  H1 H2 H3 H4 H5)).
Defined.

(** ** C2: no waiting, and the lease is taken *)

Lemma poll_times_out (self : FileLock.t) (dl : option Z) (pi : Z)
    (w : World) (f : File) :
  quiet w ->
  fs w = Dir (Some f) ->
  expired (now_after 2 w) dl = true ->
  FileLock.poll self dl pi w
  = FileLock.Throw (FileLock.timeout_error self)
      (after time_time (after (open_x (FileLock.id self)) w)).
Proof.
  intros Q F E. unfold FileLock.poll.
  rewrite (open_x_quiet_exists _ _ f Q F), sys_time_eq.
  replace (clock (after time_time (after (open_x (FileLock.id self)) w)))
    with (now_after 2 w).
  - rewrite E. reflexivity.
  - rewrite <- now_after_0. now rewrite !now_after_after.
Qed.

(** C2.  A lock object that is not Held calls [acquire(timeout=0)] while the
    lease file exists and nobody else touches it.  Then [acquire] raises
    LockTimeoutError after a single failed exclusive create; the file, its
    content and its modification time are what they were; the object is
    still not Held.  (This holds whether the file is fresh or stale: the
    deadline is tested before the age of the file.) *)
Theorem acquire_timeout_zero_leaves_lease
    (fuel : nat) (self : FileLock.t) (poll_interval : Z) (w : World)
    (f : File) :
  FileLock._lock self = false ->
  fs w = Dir (Some f) ->
  quiet w ->
  exists w',
    FileLock.acquire (S fuel) self (Some 0) poll_interval w
    = Some (Raise (FileLock.timeout_error self), self, w')
    /\ isinstance (FileLock.timeout_error self) LockTimeoutError = true
    /\ fs w' = Dir (Some f)
    /\ calls w'
       = [time_time; open_x (FileLock.id self); os_makedirs; time_time]
         ++ calls w.
Proof.
  intros L F Q. unfold FileLock.acquire. rewrite L.
  unfold FileLock.deadline. cbn [Z.leb Z.compare]. rewrite sys_time_eq.
  set (w1 := after time_time w).
  assert (Q1 : quiet w1) by (apply quiet_after, Q).
  assert (F1 : fs w1 = Dir (Some f)) by (unfold w1; rewrite fs_after; auto).
  rewrite (makedirs_quiet _ _ Q1 F1).
  set (w2 := after os_makedirs w1).
  assert (Q2 : quiet w2) by (apply quiet_after, Q1).
  assert (F2 : fs w2 = Dir (Some f)) by (unfold w2; rewrite fs_after; auto).
  cbn [FileLock.acquire_loop].
  rewrite (poll_times_out self _ poll_interval w2 f Q2 F2).
  - eexists. split; [reflexivity|]. split; [reflexivity|]. split.
    + rewrite !fs_after; auto using quiet_after.
    + reflexivity.
  - unfold expired. apply Z.leb_le.
    unfold w2, w1. rewrite !now_after_after, clock_after.
    pose proof (now_after_mono 1 4 w). lia.
Qed.

Lemma acquire_timeout_zero_leaves_lease_witness :
  let w := world0 (Dir (Some (mkFile "tokA" 1000))) 2000 [Pass 1; Pass 1] in
  let self := lock0 "tokB" false in
  FileLock._lock self = false
  /\ fs w = Dir (Some (mkFile "tokA" 1000))
  /\ quiet w
  /\ exists w',
       FileLock.acquire 1 self (Some 0) 100 w
       = Some (Raise (FileLock.timeout_error self), self, w')
       /\ isinstance (FileLock.timeout_error self) LockTimeoutError = true
       /\ fs w' = Dir (Some (mkFile "tokA" 1000))
       /\ calls w'
          = [time_time; open_x "tokB"; os_makedirs; time_time] ++ calls w.
Proof.
  intros w self.
  assert (H1 : FileLock._lock self = false) by reflexivity.
  assert (H2 : fs w = Dir (Some (mkFile "tokA" 1000))) by reflexivity.
  assert (H3 : quiet w) by reflexivity.
  repeat (split; [assumption|]).
  exact (acquire_timeout_zero_leaves_lease 0 self 100 w _ H1 H2 H3).
Defined.

(** ** C3: the lease file vanishes after the failed exclusive create *)

(** C3, as the claim has it, fails.  The lease file exists when the
    exclusive create runs and another holder removes it right after; the
    deadline (1500) has passed at the clock reading (2000).  The turn does
    not go round again: it raises LockTimeoutError, and os.stat is never
    called.  Line 177 tests the deadline before line 182 reads the
    modification time. *)
Lemma vanished_lease_past_deadline_times_out :
  let w := world0 (Dir (Some (mkFile "tokA" 1000))) 2000 [Idle; Unlink] in
  let self := lock0 "tokB" false in
  let w1 := snd (sys_open_x "tokB" w) in
  let w2 := snd (sys_time w1) in
  fst (sys_open_x "tokB" w) = inl FileExistsError
  /\ lease w2 = None
  /\ fst (sys_stat w2) = inl FileNotFoundError
  /\ FileLock.poll self (Some 1500) 100 w
     = FileLock.Throw (FileLock.timeout_error self) w2
  /\ calls w2 = [time_time; open_x "tokB"]
  /\ (forall w', FileLock.poll self (Some 1500) 100 w <> FileLock.Continue w').
Proof.
  intros w self w1 w2.
  repeat split; try reflexivity.
  intros w'. vm_compute. discriminate.
Qed.

(** C3, amended.  The exclusive create fails because the file exists.
    - If the deadline has not passed at the clock reading that follows, and
      the file has vanished when os.stat runs, the turn ends in [continue]:
      no LockTimeoutError in this turn, no sleep, and the loop goes on with
      the next exclusive create in the world that os.stat left.
    - If the deadline has passed, the turn raises LockTimeoutError without
      calling os.stat, whether the file is still there or not. *)
Theorem poll_vanished_lease
    (fuel : nat) (self : FileLock.t) (dl : option Z) (pi : Z)
    (w w1 : World) :
  sys_open_x (FileLock.id self) w = (inl FileExistsError, w1) ->
  let now := fst (sys_time w1) in
  let w2 := snd (sys_time w1) in
  let w3 := snd (sys_stat w2) in
  (expired now dl = false ->
   fst (sys_stat w2) = inl FileNotFoundError ->
   FileLock.poll self dl pi w = FileLock.Continue w3
   /\ calls w3 = os_stat :: time_time :: calls w1
   /\ clock w3 = clock (after os_stat w2)
   /\ FileLock.acquire_loop (S fuel) self dl pi w
      = FileLock.acquire_loop fuel self dl pi w3)
  /\ (expired now dl = true ->
      FileLock.poll self dl pi w
      = FileLock.Throw (FileLock.timeout_error self) w2
      /\ calls w2 = time_time :: calls w1).
Proof.
  intros X now w2 w3. split.
  - intros E V.
    assert (P : FileLock.poll self dl pi w = FileLock.Continue w3).
    { unfold FileLock.poll. rewrite X.
      rewrite (surjective_pairing (sys_time w1)). fold now w2. rewrite E.
      rewrite (surjective_pairing (sys_stat w2)). fold w3. rewrite V.
      reflexivity. }
    split; [exact P|]. split; [|split].
    + unfold w3, sys_stat.
      destruct (enter os_stat w2) as [bad w'] eqn:En.
      assert (C : calls w' = os_stat :: calls w2)
        by (change w' with (snd (bad, w')); rewrite <- En; reflexivity).
      destruct bad; [exact C|]. destruct (fs w') as [|[g|]]; exact C.
    + unfold w3, sys_stat, after.
      destruct (enter os_stat w2) as [bad w']. cbn [snd].
      destruct bad; [reflexivity|]. destruct (fs w') as [|[g|]]; reflexivity.
    + cbn [FileLock.acquire_loop]. rewrite P. reflexivity.
  - intros E. split; [|reflexivity].
    unfold FileLock.poll. rewrite X.
    rewrite (surjective_pairing (sys_time w1)). fold now w2. rewrite E.
    reflexivity.
Qed.

Lemma poll_vanished_lease_witness :
  let w :=
    world0 (Dir (Some (mkFile "tokA" 1000))) 2000 [Idle; Idle; Unlink] in
  let self := lock0 "tokB" false in
  let w1 := snd (sys_open_x "tokB" w) in
  let w2 := snd (sys_time w1) in
  let w3 := snd (sys_stat w2) in
  sys_open_x "tokB" w = (inl FileExistsError, w1)
  /\ expired 2000 (Some 7000) = false
  /\ fst (sys_stat w2) = inl FileNotFoundError
  /\ FileLock.poll self (Some 7000) 100 w = FileLock.Continue w3
  /\ calls w3 = [os_stat; time_time; open_x "tokB"]
  /\ FileLock.acquire_loop 2 self (Some 7000) 100 w
     = FileLock.acquire_loop 1 self (Some 7000) 100 w3
  /\ expired 2000 (Some 1500) = true
  /\ FileLock.poll self (Some 1500) 100 w
     = FileLock.Throw (FileLock.timeout_error self) w2
  /\ calls w2 = [time_time; open_x "tokB"].
Proof.
  intros w self w1 w2 w3.
  assert (H1 : sys_open_x (FileLock.id self) w = (inl FileExistsError, w1))
    by reflexivity.
  assert (H2 : expired (fst (sys_time w1)) (Some 7000) = false)
    by reflexivity.
  assert (H3 : fst (sys_stat w2) = inl FileNotFoundError)
    by reflexivity.
  assert (H4 : expired (fst (sys_time w1)) (Some 1500) = true)
    by reflexivity.
  destruct (poll_vanished_lease 1 self (Some 7000) 100 w w1 H1) as [A _].
  destruct (poll_vanished_lease 1 self (Some 1500) 100 w w1 H1) as [_ B].
  destruct (A H2 H3) as (P & C & _ & L).
  destruct (B H4) as (P' & C').
  split; [exact H1|]. split; [exact H2|]. split; [exact H3|].
  split; [exact P|]. split; [exact C|]. split; [exact L|].
  split; [exact H4|]. split; [exact P' | exact C'].
Defined.

(** ** C4: the lock directory cannot be created *)

(** C4 on the code.  The lock directory is missing and creating it fails
    with an OSError other than FileExistsError.  Line 167 then builds the
    message from [name], which is unbound in [acquire]: what leaves
    [acquire] is a NameError, not a LockGenerateError, and it carries
    neither the lock's name nor its file. *)
Lemma acquire_makedirs_failure_raises_NameError :
  let w := world0 NoDir 2000 [Idle; Fault] in
  let self := lock0 "tokA" false in
  fst (sys_makedirs (snd (sys_time w))) = inl PermissionError
  /\ (exists w',
        FileLock.acquire 3 self None 100 w
        = Some (Raise (NameError "name"), self, w')
        /\ calls w' = [os_makedirs; time_time])
  /\ isinstance (NameError "name") LockGenerateError = false.
Proof.
  intros w self. split; [reflexivity|]. split; [|reflexivity].
  eexists. split; reflexivity.
Qed.

(** The half of C4 that the code keeps: the directory being there already
    is no error, the acquisition goes on to the exclusive create. *)
Lemma acquire_tolerates_existing_directory
    (fuel : nat) (self : FileLock.t) (tmo : option Z) (pi : Z)
    (w : World) :
  let tm := match tmo with Some x => x | None => FileLock.timeout self end in
  let w1 := snd (FileLock.deadline tm w) in
  FileLock._lock self = false ->
  fst (sys_makedirs w1) = inl FileExistsError ->
  FileLock.acquire fuel self tmo pi w
  = match FileLock.acquire_loop fuel self (fst (FileLock.deadline tm w)) pi
            (snd (sys_makedirs w1)) with
    | None => None
    | Some (Return tt, w3) => Some (Return tt, FileLock.set_lock true self, w3)
    | Some (Raise e, w3) => Some (Raise e, self, w3)
    end.
Proof.
  intros tm w1 L M. unfold FileLock.acquire. rewrite L. fold tm.
  rewrite (surjective_pairing (FileLock.deadline tm w)). fold w1.
  rewrite (surjective_pairing (sys_makedirs w1)), M. reflexivity.
Qed.

(** ** C5: adopting a lease by its token *)

Lemma open_r_calls (w : World) : calls (snd (sys_open_r w)) = open_r :: calls w.
Proof.
  unfold sys_open_r. destruct (enter open_r w) as [bad w'] eqn:En.
  assert (C : calls w' = open_r :: calls w)
    by (change w' with (snd (bad, w')); rewrite <- En; reflexivity).
  destruct bad; [exact C|]. destruct (fs w') as [|[g|]]; exact C.
Qed.

Lemma open_r_fs (w : World) : quiet w -> fs (snd (sys_open_r w)) = fs w.
Proof.
  intros Q. unfold sys_open_r. rewrite (quiet_enter _ _ Q).
  pose proof (fs_after open_r w Q) as F.
  destruct (fs (after open_r w)) as [|[g|]] eqn:G; cbn [snd];
    rewrite <- F; exact G.
Qed.

Lemma truthy_nonempty (p : string) :
  p <> EmptyString -> truthy (Some p) = true.
Proof. destruct p; [congruence | reflexivity]. Qed.

(** C5.  [FileLock(host, name, persist=p)] with a token [p] (a non-empty
    string) makes one call, the read of the lease file, whose result [r]
    decides everything:
    - the read fails: LockPersistOSError;
    - it gives a content other than [p]: LockPersistUnmatchError;
    - it gives [p]: the object is returned Held, with [p] as its id.
    In all three the world left is the one the read left: the log gains
    [open_r] only, and the file system is untouched when nobody else
    touches it. *)
Theorem init_persist
    (encrypt : string -> string) (h : Host) (nm : string) (tmo stl : Z)
    (p : string) (w : World) :
  p <> EmptyString ->
  let r := fst (sys_open_r w) in
  let w1 := snd (sys_open_r w) in
  let new := FileLock.init encrypt h nm tmo stl (Some p) w in
  snd new = w1
  /\ calls w1 = open_r :: calls w
  /\ (quiet w -> fs w1 = fs w)
  /\ (forall e, r = inl e ->
      exists a, fst new = Raise (Lock LockPersistOSError a)
                /\ err_id a = Some p)
  /\ (forall c, r = inr c -> c <> p ->
      exists a, fst new = Raise (Lock LockPersistUnmatchError a)
                /\ err_id a = Some p)
  /\ (r = inr p ->
      exists self, fst new = Return self
                   /\ FileLock._lock self = true
                   /\ FileLock.id self = p
                   /\ FileLock._keeper self = None
                   /\ FileLock.name self = nm).
Proof.
  intros NE r w1 new.
  assert (N : new = match r with
                    | inl _ =>
                        (Raise (Lock LockPersistOSError
                           (mkArgs
                              (lock_msg "unable to access lock file for " nm "")
                              (Some nm)
                              (Some (path_join (locks h)
                                       (encrypt nm ++ ".lock")%string))
                              (Some p))), w1)
                    | inr c =>
                        if String.eqb c p then
                          (Return (FileLock.mk h nm tmo stl
                                     (path_join (locks h)
                                        (encrypt nm ++ ".lock")%string)
                                     None p true), w1)
                        else
                          (Raise (Lock LockPersistUnmatchError
                             (mkArgs
                                (lock_msg "unable to persist lock " nm
                                          " with given ID")
                                (Some nm)
                                (Some (path_join (locks h)
                                         (encrypt nm ++ ".lock")%string))
                                (Some p))), w1)
                    end).
  { unfold new, FileLock.init. rewrite (truthy_nonempty p NE).
    unfold r, w1. destruct (sys_open_r w) as [[e|c] w']; reflexivity. }
  split; [|split; [apply open_r_calls|split; [apply open_r_fs|]]].
  - rewrite N. destruct r as [e|c]; [reflexivity|].
    destruct (String.eqb c p); reflexivity.
  - split; [|split].
    + intros e R. rewrite N, R. eexists. split; reflexivity.
    + intros c R D. rewrite N, R.
      apply String.eqb_neq in D. rewrite D. eexists. split; reflexivity.
    + intros R. rewrite N, R, String.eqb_refl. eexists.
      repeat split.
Qed.

Lemma init_persist_witness :
  let w := world0 (Dir (Some (mkFile "tokA" 1000))) 2000 [] in
  let new := FileLock.init digest0 host0 "job1" 5000 60000 (Some "tokA"%string) w in
  "tokA"%string <> EmptyString
  /\ fst (sys_open_r w) = inr "tokA"%string
  /\ snd new = snd (sys_open_r w)
  /\ calls (snd new) = [open_r]
  /\ fs (snd new) = fs w
  /\ fst new = Return (lock0 "tokA" true).
Proof.
  intros w new. subst new.
  assert (NE : "tokA"%string <> EmptyString) by discriminate.
  assert (R : fst (sys_open_r w) = inr "tokA"%string) by reflexivity.
  destruct (init_persist digest0 host0 "job1"%string 5000 60000 "tokA"%string w NE)
    as (W & C & F & _ & _ & A).
  split; [exact NE|]. split; [exact R|]. split; [exact W|].
  split; [rewrite W; exact C|]. split; [rewrite W; apply F; reflexivity|].
  reflexivity.
Defined.

(** ** What a successful system call leaves *)

Lemma enter_frame (c : Call) (w : World) (bad : bool) (w1 : World) :
  enter c w = (bad, w1) ->
  calls w1 = c :: calls w /\ drawn w1 = drawn w /\ threads w1 = threads w
  /\ entropy w1 = entropy w.
Proof. unfold enter. intros E. inversion E. repeat split. Qed.

Lemma open_x_done (tok : string) (w w1 : World) :
  sys_open_x tok w = (inr tt, w1) ->
  fs w1 = Dir (Some (mkFile tok (clock w1)))
  /\ calls w1 = open_x tok :: calls w /\ drawn w1 = drawn w.
Proof.
  unfold sys_open_x. destruct (enter (open_x tok) w) as [bad w'] eqn:En.
  apply enter_frame in En. destruct En as (C & D & _).
  destruct bad; [discriminate|].
  destruct (fs w') as [|[g|]]; try discriminate.
  intros E. inversion E. subst w1. cbn. auto.
Qed.

Lemma open_w_done (tok : string) (w w1 : World) :
  sys_open_w tok w = (inr tt, w1) ->
  fs w1 = Dir (Some (mkFile tok (clock w1)))
  /\ calls w1 = open_w tok :: calls w /\ drawn w1 = drawn w.
Proof.
  unfold sys_open_w. destruct (enter (open_w tok) w) as [bad w'] eqn:En.
  apply enter_frame in En. destruct En as (C & D & _).
  destruct bad; [discriminate|].
  destruct (fs w') as [|g]; try discriminate.
  intros E. inversion E. subst w1. cbn. auto.
Qed.

(** A turn that ends in [break] has just written the token of the lock
    object into the lease file, by an exclusive create or by a plain
    write. *)
Lemma poll_break (self : FileLock.t) (dl : option Z) (pi : Z)
    (w w' : World) :
  FileLock.poll self dl pi w = FileLock.Break w' ->
  fs w' = Dir (Some (mkFile (FileLock.id self) (clock w')))
  /\ (hd_error (calls w') = Some (open_x (FileLock.id self))
      \/ hd_error (calls w') = Some (open_w (FileLock.id self))).
Proof.
  unfold FileLock.poll.
  destruct (sys_open_x (FileLock.id self) w) as [[[]|[]] w1] eqn:X;
    try discriminate.
  - destruct (sys_time w1) as [now w2].
    destruct (expired now dl); [discriminate|].
    destruct (sys_stat w2) as [[[]|m] w3]; try discriminate.
    destruct (m + FileLock.stale self <=? now).
    + destruct (sys_open_w (FileLock.id self) w3) as [[e|[]] w4] eqn:W;
        [discriminate|].
      intros E. inversion E. subst w4.
      apply open_w_done in W. destruct W as (F & C & _).
      split; [exact F|]. right. now rewrite C.
    + destruct (sys_sleep pi w3) as [[[]|e] w4]; discriminate.
  - intros E. inversion E. subst w1.
    apply open_x_done in X. destruct X as (F & C & _).
    split; [exact F|]. left. now rewrite C.
Qed.

(** ** C6: a negative timeout *)

Lemma poll_without_deadline (self : FileLock.t) (pi : Z) (w w' : World)
    (e : exn) :
  FileLock.poll self None pi w = FileLock.Throw e w' ->
  isinstance e LockTimeoutError = false.
Proof.
  unfold FileLock.poll.
  destruct (sys_open_x (FileLock.id self) w) as [[[]|[]] w1];
    try (intros E; inversion E; reflexivity).
  destruct (sys_time w1) as [now w2]. cbn [expired].
  destruct (sys_stat w2) as [[[]|m] w3];
    try (intros E; inversion E; reflexivity).
  destruct (m + FileLock.stale self <=? now).
  - destruct (sys_open_w (FileLock.id self) w3) as [[x|[]] w4];
      intros E; inversion E; reflexivity.
  - unfold sys_sleep. destruct (pi <? 0).
    + intros E; inversion E; reflexivity.
    + destruct (enter (time_sleep pi) w3); discriminate.
Qed.

Lemma loop_without_deadline (self : FileLock.t) (pi : Z) (fuel : nat) :
  forall (w w' : World) (r : outcome unit),
  FileLock.acquire_loop fuel self None pi w = Some (r, w') ->
  raises r LockTimeoutError = false.
Proof.
  induction fuel as [|k IH]; intros w w' r; cbn [FileLock.acquire_loop].
  - discriminate.
  - destruct (FileLock.poll self None pi w) as [w1|w1|e w1] eqn:P.
    + intros E. inversion E. reflexivity.
    + apply IH.
    + intros E. inversion E. subst r. cbn [raises].
      exact (poll_without_deadline _ _ _ _ _ P).
Qed.

(** ** C7: release *)

(** C7.  For every lock object and world:
    - not Held: [release] raises LockReleaseNotAcquiredError, makes no call,
      and leaves object and world as they were;
    - whenever [release] raises, the object is unchanged; so a Held object
      whose file is gone stays Held after LockReleaseNotFoundError;
    - the Held flag changes only when os.remove succeeded, and then the
      object is not Held. *)
Theorem release_changes_state_only_on_removal
    (self : FileLock.t) (w : World) :
  let r := fst (fst (FileLock.release self w)) in
  let self' := snd (fst (FileLock.release self w)) in
  let w' := snd (FileLock.release self w) in
  (FileLock._lock self = false ->
   raises r LockReleaseNotAcquiredError = true /\ self' = self /\ w' = w)
  /\ (forall e, r = Raise e -> self' = self)
  /\ (FileLock._lock self = true ->
      fst (sys_remove w) = inl FileNotFoundError ->
      raises r LockReleaseNotFoundError = true
      /\ FileLock._lock self' = true)
  /\ (FileLock._lock self = true ->
      forall e, fst (sys_remove w) = inl e ->
      raises r LockReleaseError = true /\ self' = self)
  /\ (FileLock._lock self' <> FileLock._lock self ->
      r = Return tt /\ fst (sys_remove w) = inr tt
      /\ FileLock._lock self' = false)
  /\ (FileLock._lock self = true ->
      fst (sys_remove w) = inr tt ->
      r = Return tt /\ self' = FileLock.set_lock false self).
Proof.
  unfold FileLock.release.
  destruct (FileLock._lock self) eqn:L; cbn [negb].
  - destruct (sys_remove w) as [[[]|[]] w1]; cbn [fst snd];
      repeat split; intros; try discriminate; try congruence;
      try reflexivity.
  - cbn [fst snd]. repeat split; intros; try discriminate; try congruence.
Qed.

Lemma release_changes_state_only_on_removal_witness :
  let w := world0 (Dir None) 2000 [] in
  let self := lock0 "tokA" true in
  FileLock._lock self = true
  /\ fst (sys_remove w) = inl FileNotFoundError
  /\ raises (fst (fst (FileLock.release self w))) LockReleaseNotFoundError
     = true
  /\ FileLock._lock (snd (fst (FileLock.release self w))) = true
  /\ (FileLock._lock (lock0 "tokA" false) = false
      /\ raises (fst (fst (FileLock.release (lock0 "tokA" false) w)))
                LockReleaseNotAcquiredError = true
      /\ snd (fst (FileLock.release (lock0 "tokA" false) w))
         = lock0 "tokA" false
      /\ snd (FileLock.release (lock0 "tokA" false) w) = w).
Proof.
  intros w self.
  assert (L : FileLock._lock self = true) by reflexivity.
  assert (R : fst (sys_remove w) = inl FileNotFoundError) by reflexivity.
  assert (L0 : FileLock._lock (lock0 "tokA" false) = false) by reflexivity.
  destruct (release_changes_state_only_on_removal self w)
    as (_ & _ & A & _).
  destruct (release_changes_state_only_on_removal (lock0 "tokA" false) w)
    as (B & _).
  destruct (A L R) as [A1 A2]. destruct (B L0) as (B1 & B2 & B3).
  split; [exact L|]. split; [exact R|]. split; [exact A1|].
  split; [exact A2|]. split; [exact L0|]. split; [exact B1|].
  split; [exact B2 | exact B3].
Defined.

(** ** C8: extend *)

(** C8.  A Held object whose lease file exists, with nobody else touching
    it: [extend] returns, the file's modification time is the clock at the
    call of os.utime, its content is what it was, and the object is
    unchanged (still Held).  An object that is not Held: [extend] raises
    LockExtendNotAcquiredError, makes no call and leaves the world as it
    was. *)
Theorem extend_refreshes_mtime_only (self : FileLock.t) (w : World) :
  (forall f,
     FileLock._lock self = true ->
     fs w = Dir (Some f) ->
     quiet w ->
     exists w',
       FileLock.extend self w = (Return tt, self, w')
       /\ fs w' = Dir (Some (mkFile (content f) (now_after 1 w)))
       /\ clock w' = now_after 1 w
       /\ calls w' = os_utime :: calls w)
  /\ (FileLock._lock self = false ->
      raises (fst (fst (FileLock.extend self w))) LockExtendNotAcquiredError
      = true
      /\ snd (fst (FileLock.extend self w)) = self
      /\ snd (FileLock.extend self w) = w).
Proof.
  split.
  - intros f L F Q. unfold FileLock.extend. rewrite L. cbn [negb].
    rewrite (utime_quiet _ _ Q F). eexists. split; [reflexivity|].
    cbn [fs set_fs clock calls]. rewrite clock_after. repeat split.
  - intros L. unfold FileLock.extend. rewrite L. cbn. repeat split.
Qed.

Lemma extend_refreshes_mtime_only_witness :
  let w := world0 (Dir (Some (mkFile "tokA" 1000))) 2000 [Pass 5] in
  let self := lock0 "tokA" true in
  FileLock._lock self = true
  /\ fs w = Dir (Some (mkFile "tokA" 1000))
  /\ quiet w
  /\ (exists w',
        FileLock.extend self w = (Return tt, self, w')
        /\ fs w' = Dir (Some (mkFile "tokA" 2005))
        /\ clock w' = 2005
        /\ calls w' = [os_utime])
  /\ FileLock._lock (lock0 "tokB" false) = false
  /\ snd (FileLock.extend (lock0 "tokB" false) w) = w.
Proof.
  intros w self.
  assert (L : FileLock._lock self = true) by reflexivity.
  assert (F : fs w = Dir (Some (mkFile "tokA" 1000))) by reflexivity.
  assert (Q : quiet w) by reflexivity.
  assert (L0 : FileLock._lock (lock0 "tokB" false) = false) by reflexivity.
  destruct (extend_refreshes_mtime_only self w) as [A _].
  destruct (extend_refreshes_mtime_only (lock0 "tokB" false) w) as [_ B].
  destruct (B L0) as (_ & _ & B3).
  split; [exact L|]. split; [exact F|]. split; [exact Q|].
  split; [exact (A _ L F Q)|]. split; [exact L0 | exact B3].
Defined.

(** ** C9: keep *)





(** ** C10: where the token comes from *)

(** No call of [acquire] or [release] reads the random source. *)
Ltac frame_call :=
  let w := fresh "w" in
  let bad := fresh "bad" in
  let w' := fresh "w'" in
  let En := fresh "En" in
  let D := fresh "D" in
  intros w;
  unfold sys_makedirs, sys_open_x, sys_open_w, sys_stat, sys_remove;
  destruct (enter _ w) as [bad w'] eqn:En;
  apply enter_frame in En; destruct En as (_ & D & _);
  destruct bad; [exact D|];
  destruct (fs w') as [|[?|]]; exact D.

Lemma makedirs_drawn : forall w, drawn (snd (sys_makedirs w)) = drawn w.
Proof. frame_call. Qed.

Lemma open_x_drawn (tok : string) :
  forall w, drawn (snd (sys_open_x tok w)) = drawn w.
Proof. frame_call. Qed.

Lemma open_w_drawn (tok : string) :
  forall w, drawn (snd (sys_open_w tok w)) = drawn w.
Proof. frame_call. Qed.

Lemma stat_drawn : forall w, drawn (snd (sys_stat w)) = drawn w.
Proof. frame_call. Qed.

Lemma remove_drawn : forall w, drawn (snd (sys_remove w)) = drawn w.
Proof. frame_call. Qed.

Lemma sleep_drawn (d : Z) (w : World) :
  drawn (snd (sys_sleep d w)) = drawn w.
Proof. unfold sys_sleep. destruct (d <? 0); reflexivity. Qed.

Lemma poll_drawn (self : FileLock.t) (dl : option Z) (pi : Z) (w : World) :
  match FileLock.poll self dl pi w with
  | FileLock.Break w' | FileLock.Continue w' | FileLock.Throw _ w' =>
      drawn w' = drawn w
  end.
Proof.
  unfold FileLock.poll.
  pose proof (open_x_drawn (FileLock.id self) w) as X.
  destruct (sys_open_x (FileLock.id self) w) as [[[]|[]] w1];
    cbn [snd] in X; try exact X.
  rewrite sys_time_eq. set (w2 := after time_time w1).
  assert (T : drawn w2 = drawn w) by (rewrite <- X; reflexivity).
  destruct (expired (clock w2) dl); [exact T|].
  pose proof (stat_drawn w2) as S.
  destruct (sys_stat w2) as [[[]|m] w3]; cbn [snd] in S; try congruence.
  destruct (m + FileLock.stale self <=? clock w2).
  - pose proof (open_w_drawn (FileLock.id self) w3) as W.
    destruct (sys_open_w (FileLock.id self) w3) as [[e|[]] w4];
      cbn [snd] in W; congruence.
  - pose proof (sleep_drawn pi w3) as Z.
    destruct (sys_sleep pi w3) as [[[]|e] w4]; cbn [snd] in Z; congruence.
Qed.

Lemma loop_drawn (self : FileLock.t) (dl : option Z) (pi : Z) (fuel : nat) :
  forall w r w',
  FileLock.acquire_loop fuel self dl pi w = Some (r, w') ->
  drawn w' = drawn w.
Proof.
  induction fuel as [|k IH]; intros w r w'; cbn [FileLock.acquire_loop].
  - discriminate.
  - pose proof (poll_drawn self dl pi w) as P.
    destruct (FileLock.poll self dl pi w) as [w1|w1|e w1].
    + intros E. inversion E. congruence.
    + intros E. apply IH in E. congruence.
    + intros E. inversion E. congruence.
Qed.

Lemma loop_return (self : FileLock.t) (dl : option Z) (pi : Z) (fuel : nat) :
  forall w w',
  FileLock.acquire_loop fuel self dl pi w = Some (Return tt, w') ->
  fs w' = Dir (Some (mkFile (FileLock.id self) (clock w')))
  /\ (hd_error (calls w') = Some (open_x (FileLock.id self))
      \/ hd_error (calls w') = Some (open_w (FileLock.id self))).
Proof.
  induction fuel as [|k IH]; intros w w'; cbn [FileLock.acquire_loop].
  - discriminate.
  - destruct (FileLock.poll self dl pi w) as [w1|w1|e w1] eqn:P.
    + intros E. inversion E. subst w1. exact (poll_break _ _ _ _ _ P).
    + apply IH.
    + discriminate.
Qed.

(** C10, as the claim has it, fails.  One lock object, made without
    [persist], acquires, releases and acquires again; all four succeed.
    Both acquisitions create the file with the same token, the one drawn in
    [__init__]; the random source is read once in the whole run. *)
Lemma reacquire_writes_same_token :
  let w0 := world0 NoDir 0 [] in
  let w1 := mkWorld NoDir 0 [] [token_urlsafe] tokens 1 0 in
  let w2 :=
    mkWorld (Dir (Some (mkFile "tokA" 0))) 0 []
            [open_x "tokA"; os_makedirs; time_time; token_urlsafe]
            tokens 1 0 in
  let w3 :=
    mkWorld (Dir None) 0 []
            [os_remove; open_x "tokA"; os_makedirs; time_time; token_urlsafe]
            tokens 1 0 in
  let w4 :=
    mkWorld (Dir (Some (mkFile "tokA" 0))) 0 []
            [open_x "tokA"; os_makedirs; time_time;
             os_remove;
             open_x "tokA"; os_makedirs; time_time;
             token_urlsafe]
            tokens 1 0 in
  FileLock.init digest0 host0 "job1" 5000 60000 None w0
  = (Return (lock0 "tokA" false), w1)
  /\ FileLock.acquire 1 (lock0 "tokA" false) None 100 w1
     = Some (Return tt, lock0 "tokA" true, w2)
  /\ FileLock.release (lock0 "tokA" true) w2
     = (Return tt, lock0 "tokA" false, w3)
  /\ FileLock.acquire 1 (lock0 "tokA" false) None 100 w3
     = Some (Return tt, lock0 "tokA" true, w4)
  /\ option_map content (lease w2) = Some "tokA"%string
  /\ option_map content (lease w4) = Some "tokA"%string
  /\ drawn w4 = 1%nat.
Proof.
  intros w0 w1 w2 w3 w4.
  split; [vm_compute; reflexivity|]. split; [vm_compute; reflexivity|].
  split; [vm_compute; reflexivity|]. split; [vm_compute; reflexivity|].
  repeat split.
Qed.

(** C10, amended.  The token is drawn from the random source once, when
    the lock object is made without [persist], and is kept as its id.
    Every acquisition that takes the object from not Held to Held writes
    that id into the lease file, by the exclusive create or by the plain
    write, and reads nothing from the random source; neither [acquire] nor
    [release] changes the id.  So two acquisitions by one object, with a
    release in between, write the same token. *)
Theorem acquire_writes_the_id_of_the_object
    (encrypt : string -> string) (h : Host) (nm : string) (tmo stl : Z)
    (persist : option string) (w0 : World)
    (fuel : nat) (self : FileLock.t) (t : option Z) (pi : Z) (w : World) :
  (truthy persist = false ->
   exists self0,
     FileLock.init encrypt h nm tmo stl persist w0
     = (Return self0, snd (sys_token_urlsafe w0))
     /\ FileLock.id self0 = entropy w0 (drawn w0)
     /\ FileLock._lock self0 = false
     /\ drawn (snd (sys_token_urlsafe w0)) = S (drawn w0))
  /\ (forall self' w',
        FileLock._lock self = false ->
        FileLock.acquire fuel self t pi w = Some (Return tt, self', w') ->
        fs w' = Dir (Some (mkFile (FileLock.id self) (clock w')))
        /\ (hd_error (calls w') = Some (open_x (FileLock.id self))
            \/ hd_error (calls w') = Some (open_w (FileLock.id self)))
        /\ self' = FileLock.set_lock true self
        /\ FileLock.id self' = FileLock.id self
        /\ drawn w' = drawn w)
  /\ FileLock.id (snd (fst (FileLock.release self w))) = FileLock.id self
  /\ drawn (snd (FileLock.release self w)) = drawn w.
Proof.
  split; [|split; [|split]].
  - intros P. unfold FileLock.init. rewrite P. eexists.
    split; [reflexivity|]. repeat split.
  - intros self' w' L. unfold FileLock.acquire. rewrite L.
    set (tm := match t with Some x => x | None => FileLock.timeout self end).
    assert (D : drawn (snd (FileLock.deadline tm w)) = drawn w).
    { unfold FileLock.deadline. destruct (0 <=? tm); reflexivity. }
    destruct (FileLock.deadline tm w) as [dl w1]. cbn [snd] in D.
    pose proof (makedirs_drawn w1) as M.
    destruct (sys_makedirs w1) as [[[]|[]] w2]; cbn [snd] in M;
      try discriminate;
      destruct (FileLock.acquire_loop fuel self dl pi w2)
        as [[[[]|e] w3]|] eqn:A; try discriminate;
      intros E; inversion E; subst;
      destruct (loop_return _ _ _ _ _ _ A) as [F C];
      apply loop_drawn in A;
      (split; [exact F|]); (split; [exact C|]);
      (split; [reflexivity|]); (split; [reflexivity|]); congruence.
  - unfold FileLock.release. destruct (negb (FileLock._lock self));
      [reflexivity|].
    destruct (sys_remove w) as [[[]|[]] w1]; reflexivity.
  - unfold FileLock.release. destruct (negb (FileLock._lock self));
      [reflexivity|].
    pose proof (remove_drawn w) as R.
    destruct (sys_remove w) as [[[]|[]] w1]; exact R.
Qed.

Lemma acquire_writes_the_id_of_the_object_witness :
  let w0 := world0 NoDir 0 [] in
  let self := lock0 "tokA" false in
  let w := snd (sys_token_urlsafe w0) in
  let w' :=
    mkWorld (Dir (Some (mkFile "tokA" 0))) 0 []
            [open_x "tokA"; os_makedirs; time_time; token_urlsafe]
            tokens 1 0 in
  truthy None = false
  /\ FileLock._lock self = false
  /\ FileLock.acquire 1 self None 100 w = Some (Return tt, lock0 "tokA" true, w')
  /\ (exists self0,
        FileLock.init digest0 host0 "job1" 5000 60000 None w0
        = (Return self0, w)
        /\ FileLock.id self0 = entropy w0 (drawn w0)
        /\ FileLock._lock self0 = false
        /\ drawn w = S (drawn w0))
  /\ fs w' = Dir (Some (mkFile (FileLock.id self) (clock w')))
  /\ FileLock.id (lock0 "tokA" true) = FileLock.id self
  /\ drawn w' = drawn w.
Proof.
  intros w0 self w w'.
  assert (P : truthy None = false) by reflexivity.
  assert (L : FileLock._lock self = false) by reflexivity.
  assert (A : FileLock.acquire 1 self None 100 w
              = Some (Return tt, lock0 "tokA" true, w'))
    by (vm_compute; reflexivity).
  destruct (acquire_writes_the_id_of_the_object
              digest0 host0 "job1"%string 5000 60000 None w0
              1 self None 100 w) as (I & B & _).
  destruct (B _ _ L A) as (F & _ & _ & E & D).
  split; [exact P|]. split; [exact L|]. split; [exact A|].
  split; [exact (I P)|]. split; [exact F|]. split; [exact E | exact D].
Defined.

(* ------------------------------------------------------------------ *)
(** * Further properties of the lock *)

(** ** A free lock *)

Lemma quiet_set_fs (s : FS) (w : World) : quiet w -> quiet (set_fs s w).
Proof. exact (fun Q => Q). Qed.

Lemma makedirs_quiet_missing (w : World) :
  quiet w -> fs w = NoDir ->
  sys_makedirs w = (inr tt, set_fs (Dir None) (after os_makedirs w)).
Proof.
  intros Q F. unfold sys_makedirs. rewrite (quiet_enter _ _ Q).
  rewrite (fs_after _ _ Q), F. reflexivity.
Qed.

Lemma open_x_quiet_free (tok : string) (w : World) :
  quiet w -> fs w = Dir None ->
  sys_open_x tok w =
  (inr tt,
   set_fs (Dir (Some (mkFile tok (clock (after (open_x tok) w)))))
          (after (open_x tok) w)).
Proof.
  intros Q F. unfold sys_open_x. rewrite (quiet_enter _ _ Q).
  rewrite (fs_after _ _ Q), F. reflexivity.
Qed.

(** After makedirs, in a quiet world without a lease file, the directory is
    there and empty. *)
Lemma makedirs_quiet_free (w : World) :
  quiet w -> lease w = None ->
  exists r w2,
    sys_makedirs w = (r, w2)
    /\ (r = inr tt \/ r = inl FileExistsError)
    /\ quiet w2 /\ fs w2 = Dir None
    /\ calls w2 = os_makedirs :: calls w.
Proof.
  intros Q N. unfold lease in N.
  destruct (fs w) as [|[f|]] eqn:F; [|discriminate|].
  - rewrite (makedirs_quiet_missing w Q F). do 2 eexists.
    split; [reflexivity|]. split; [now left|].
    split; [apply quiet_set_fs, quiet_after, Q|]. split; reflexivity.
  - rewrite (makedirs_quiet w None Q F). do 2 eexists.
    split; [reflexivity|]. split; [now right|].
    split; [apply quiet_after, Q|]. split; [|reflexivity].
    now rewrite fs_after.
Qed.

(** X1.  A lock object that is not Held, no lease file (the lock directory
    may be missing too), nobody else around.  Then [acquire] returns Held in
    its first turn, whatever the timeout and the poll interval, a timeout of
    0 included: the deadline is looked at only after an exclusive create
    has failed.  The file is created with the object's id and the clock of
    the create as its modification time; the only file operations are
    makedirs and that create. *)
Theorem acquire_free_lock
    (fuel : nat) (self : FileLock.t) (tmo : option Z) (pi : Z) (w : World) :
  let tm := match tmo with Some x => x | None => FileLock.timeout self end in
  FileLock._lock self = false ->
  quiet w ->
  lease w = None ->
  exists w',
    FileLock.acquire (S fuel) self tmo pi w
    = Some (Return tt, FileLock.set_lock true self, w')
    /\ fs w' = Dir (Some (mkFile (FileLock.id self) (clock w')))
    /\ calls w'
       = [open_x (FileLock.id self); os_makedirs]
         ++ (if 0 <=? tm then [time_time] else []) ++ calls w.
Proof.
  intros tm L Q N.
  destruct (deadline_quiet tm w Q) as (Q1 & F1 & C1).
  assert (N1 : lease (snd (FileLock.deadline tm w)) = None)
    by (unfold lease in *; now rewrite F1).
  destruct (makedirs_quiet_free _ Q1 N1) as (r & w2 & M & R & Q2 & F2 & C2).
  unfold FileLock.acquire. rewrite L. fold tm.
  rewrite (surjective_pairing (FileLock.deadline tm w)), M.
  assert (A : FileLock.acquire_loop (S fuel) self
                (fst (FileLock.deadline tm w)) pi w2
              = Some (Return tt,
                      set_fs (Dir (Some (mkFile (FileLock.id self)
                                (clock (after (open_x (FileLock.id self)) w2)))))
                             (after (open_x (FileLock.id self)) w2))).
  { cbn [FileLock.acquire_loop]. unfold FileLock.poll.
    now rewrite (open_x_quiet_free _ w2 Q2 F2). }
  exists (set_fs (Dir (Some (mkFile (FileLock.id self)
                     (clock (after (open_x (FileLock.id self)) w2)))))
                 (after (open_x (FileLock.id self)) w2)).
  split.
  - destruct R as [-> | ->]; now rewrite A.
  - split; [reflexivity|]. cbn [calls set_fs]. rewrite calls_after, C2, C1.
    reflexivity.
Qed.

Lemma acquire_free_lock_witness :
  let w := world0 NoDir 2000 [Pass 7] in
  let self := lock0 "tokA" false in
  FileLock._lock self = false
  /\ quiet w
  /\ lease w = None
  /\ exists w',
       FileLock.acquire 1 self (Some 0) 100 w
       = Some (Return tt, lock0 "tokA" true, w')
       /\ fs w' = Dir (Some (mkFile "tokA" (clock w')))
       /\ calls w' = [open_x "tokA"; os_makedirs; time_time].
Proof.
  intros w self.
  assert (L : FileLock._lock self = false) by reflexivity.
  assert (Q : quiet w) by reflexivity.
  assert (N : lease w = None) by reflexivity.
  split; [exact L|]. split; [exact Q|]. split; [exact N|].
  exact (acquire_free_lock 0 self (Some 0) 100 w L Q N).
Defined.

(** ** What [acquire] can end in *)

Lemma enter_calm_head (c : Call) (w : World) :
  calm (hd Idle (script w)) = true ->
  enter c w = (false, after c w) /\ fs (after c w) = fs w.
Proof.
  unfold after, enter. destruct (hd Idle (script w)); cbn; intros H;
    try discriminate H; split; try reflexivity;
    destruct (fs w) as [|[f|]]; reflexivity.
Qed.

Lemma acquire_held (fuel : nat) (self self' : FileLock.t) (tmo : option Z)
    (pi : Z) (w w' : World) :
  FileLock._lock self = false ->
  FileLock.acquire fuel self tmo pi w = Some (Return tt, self', w') ->
  self' = FileLock.set_lock true self
  /\ fs w' = Dir (Some (mkFile (FileLock.id self) (clock w'))).
Proof.
  intros L. unfold FileLock.acquire. rewrite L.
  destruct (FileLock.deadline _ w) as [dl w1].
  destruct (sys_makedirs w1) as [[[]|[]] w2]; try discriminate;
    destruct (FileLock.acquire_loop fuel self dl pi w2)
      as [[[[]|e] w3]|] eqn:A; try discriminate;
    intros E; inversion E; subst;
    (split; [reflexivity | exact (proj1 (loop_return _ _ _ _ _ _ A))]).
Qed.

Lemma poll_throws (self : FileLock.t) (dl : option Z) (pi : Z)
    (w w' : World) (e : exn) :
  FileLock.poll self dl pi w = FileLock.Throw e w' ->
  e = FileLock.timeout_error self
  \/ e = FileLock.generate_error self
  \/ e = FileLock.error LockRegenerateError
           (lock_msg "unable to regenerate stale lock "
                     (FileLock.name self) "") self
  \/ e = ValueError.
Proof.
  unfold FileLock.poll.
  destruct (sys_open_x (FileLock.id self) w) as [[[]|[]] w1];
    [ | intros E; inversion E; auto | intros E; inversion E; auto
      | discriminate ].
  destruct (sys_time w1) as [now w2].
  destruct (expired now dl); [intros E; inversion E; auto|].
  destruct (sys_stat w2) as [[[]|m] w3];
    [ intros E; inversion E; auto | discriminate
      | intros E; inversion E; auto | ].
  destruct (m + FileLock.stale self <=? now).
  - destruct (sys_open_w (FileLock.id self) w3) as [[x|[]] w4];
      intros E; inversion E; auto.
  - unfold sys_sleep. destruct (pi <? 0).
    + intros E; inversion E; auto.
    + destruct (enter (time_sleep pi) w3); discriminate.
Qed.

Lemma loop_throws (self : FileLock.t) (dl : option Z) (pi : Z) (fuel : nat) :
  forall (w w' : World) (e : exn),
  FileLock.acquire_loop fuel self dl pi w = Some (Raise e, w') ->
  e = FileLock.timeout_error self
  \/ e = FileLock.generate_error self
  \/ e = FileLock.error LockRegenerateError
           (lock_msg "unable to regenerate stale lock "
                     (FileLock.name self) "") self
  \/ e = ValueError.
Proof.
  induction fuel as [|k IH]; intros w w' e; cbn [FileLock.acquire_loop].
  - discriminate.
  - destruct (FileLock.poll self dl pi w) as [w1|w1|x w1] eqn:P.
    + discriminate.
    + apply IH.
    + intros E. inversion E. subst. exact (poll_throws _ _ _ _ _ _ P).
Qed.

(** X2.  Whatever the world does, when [acquire] raises, the lock object is
    as it was and not Held, and the exception is one of: a
    LockTimeoutError, LockGenerateError or LockRegenerateError built with
    the name and the file of the lock and no id (each a LockAcquireError,
    none a persist, extend or release error); the NameError of line 167;
    the ValueError of a negative sleep. *)
Theorem acquire_errors
    (fuel : nat) (self self' : FileLock.t) (tmo : option Z) (pi : Z)
    (w w' : World) (e : exn) :
  FileLock.acquire fuel self tmo pi w = Some (Raise e, self', w') ->
  self' = self
  /\ FileLock._lock self = false
  /\ ((exists c msg,
         e = Lock c (mkArgs msg (Some (FileLock.name self))
                            (Some (FileLock.file self)) None)
         /\ (c = LockTimeoutError \/ c = LockGenerateError
             \/ c = LockRegenerateError)
         /\ isinstance e LockAcquireError = true
         /\ isinstance e LockPersistError = false
         /\ isinstance e LockExtendError = false
         /\ isinstance e LockReleaseError = false)
      \/ e = NameError "name"
      \/ e = ValueError).
Proof.
  unfold FileLock.acquire. destruct (FileLock._lock self) eqn:L;
    [discriminate|].
  destruct (FileLock.deadline _ w) as [dl w1].
  assert (K : forall x,
             x = FileLock.timeout_error self
             \/ x = FileLock.generate_error self
             \/ x = FileLock.error LockRegenerateError
                      (lock_msg "unable to regenerate stale lock "
                                (FileLock.name self) "") self
             \/ x = ValueError ->
             (exists c msg,
                x = Lock c (mkArgs msg (Some (FileLock.name self))
                                   (Some (FileLock.file self)) None)
                /\ (c = LockTimeoutError \/ c = LockGenerateError
                    \/ c = LockRegenerateError)
                /\ isinstance x LockAcquireError = true
                /\ isinstance x LockPersistError = false
                /\ isinstance x LockExtendError = false
                /\ isinstance x LockReleaseError = false)
             \/ x = NameError "name"
             \/ x = ValueError).
  { intros x [ -> | [ -> | [ -> | -> ] ] ];
      [left|left|left|right; right; reflexivity];
      do 2 eexists; (split; [reflexivity|]); repeat split; auto. }
  destruct (sys_makedirs w1) as [[[]|[]] w2];
    try (intros E; inversion E; subst; repeat split; auto; fail);
    destruct (FileLock.acquire_loop fuel self dl pi w2)
      as [[[[]|x] w3]|] eqn:A; try discriminate;
    intros E; inversion E; subst;
    (split; [reflexivity|]); (split; [reflexivity|]);
    apply K; exact (loop_throws _ _ _ _ _ _ _ A).
Qed.

Lemma acquire_errors_witness :
  let w := world0 (Dir (Some (mkFile "tokA" 1000))) 2000 [] in
  let self := lock0 "tokB" false in
  let w' :=
    mkWorld (Dir (Some (mkFile "tokA" 1000))) 2000 []
            [time_time; open_x "tokB"; os_makedirs; time_time] tokens 0 0 in
  FileLock.acquire 1 self (Some 0) 100 w
  = Some (Raise (FileLock.timeout_error self), self, w')
  /\ isinstance (FileLock.timeout_error self) LockAcquireError = true
  /\ isinstance (FileLock.timeout_error self) LockReleaseError = false.
Proof.
  intros w self w'.
  assert (A : FileLock.acquire 1 self (Some 0) 100 w
              = Some (Raise (FileLock.timeout_error self), self, w'))
    by (vm_compute; reflexivity).
  split; [exact A|].
  destruct (acquire_errors 1 self self (Some 0) 100 w w' _ A) as (_ & _ & C).
  split; reflexivity.
Defined.

(** X3.  Whatever the world does, when [acquire] returns, the object is
    Held, its id is what it was, and the lease file holds that id when the
    object was not Held before.  From then on [acquire] is a no-op: any
    further call, with any timeout, returns at once with the same object
    and the same world, without a single system call (no fuel is needed). *)
Theorem acquire_success_is_held
    (fuel : nat) (self self' : FileLock.t) (tmo : option Z) (pi : Z)
    (w w' : World) :
  FileLock.acquire fuel self tmo pi w = Some (Return tt, self', w') ->
  FileLock._lock self' = true
  /\ FileLock.id self' = FileLock.id self
  /\ (FileLock._lock self = false ->
      fs w' = Dir (Some (mkFile (FileLock.id self') (clock w'))))
  /\ (forall fuel' tmo' pi',
        FileLock.acquire fuel' self' tmo' pi' w'
        = Some (Return tt, self', w')).
Proof.
  intros A. destruct (FileLock._lock self) eqn:L.
  - unfold FileLock.acquire in A. rewrite L in A. inversion A. subst.
    split; [exact L|]. split; [reflexivity|]. split; [discriminate|].
    intros. unfold FileLock.acquire. now rewrite L.
  - destruct (acquire_held _ _ _ _ _ _ _ L A) as [-> F].
    split; [reflexivity|]. split; [reflexivity|]. split; [intros _; exact F|].
    reflexivity.
Qed.

Lemma acquire_success_is_held_witness :
  let w := world0 (Dir None) 2000 [] in
  let self := lock0 "tokA" false in
  let self' := lock0 "tokA" true in
  let w' :=
    mkWorld (Dir (Some (mkFile "tokA" 2000))) 2000 []
            [open_x "tokA"; os_makedirs; time_time] tokens 0 0 in
  FileLock.acquire 1 self None 100 w = Some (Return tt, self', w')
  /\ FileLock._lock self' = true
  /\ FileLock.acquire 0 self' (Some 0) (-1) w' = Some (Return tt, self', w').
Proof.
  intros w self self' w'.
  assert (A : FileLock.acquire 1 self None 100 w = Some (Return tt, self', w'))
    by (vm_compute; reflexivity).
  destruct (acquire_success_is_held 1 self self' None 100 w w' A)
    as (H & _ & _ & R).
  split; [exact A|]. split; [exact H|]. exact (R 0%nat (Some 0) (-1)).
Defined.

(** ** Acquire, then release *)

(** X4.  A lock object that is not Held acquires the lock, in any world and
    in any way (created or taken over).  If nothing disturbs the release
    that follows, [release] returns, the lease file is gone, and the object
    is exactly what it was before the acquisition; the release is the one
    call os.remove. *)
Theorem acquire_then_release_leaves_no_file
    (fuel : nat) (self self' : FileLock.t) (tmo : option Z) (pi : Z)
    (w w' : World) :
  FileLock._lock self = false ->
  FileLock.acquire fuel self tmo pi w = Some (Return tt, self', w') ->
  calm (hd Idle (script w')) = true ->
  exists w'',
    FileLock.release self' w' = (Return tt, self, w'')
    /\ fs w'' = Dir None
    /\ lease w'' = None
    /\ calls w'' = os_remove :: calls w'.
Proof.
  intros L A C. destruct (acquire_held _ _ _ _ _ _ _ L A) as [-> F].
  destruct (enter_calm_head os_remove w' C) as [En Fa].
  unfold FileLock.release, sys_remove. cbn [FileLock._lock FileLock.set_lock negb].
  rewrite En, Fa, F. eexists. split.
  - destruct self. cbn in L. subst. reflexivity.
  - split; [reflexivity|]. split; reflexivity.
Qed.

Lemma acquire_then_release_leaves_no_file_witness :
  let w := world0 NoDir 2000 [] in
  let self := lock0 "tokA" false in
  let w' :=
    mkWorld (Dir (Some (mkFile "tokA" 2000))) 2000 []
            [open_x "tokA"; os_makedirs; time_time] tokens 0 0 in
  FileLock._lock self = false
  /\ FileLock.acquire 1 self None 100 w
     = Some (Return tt, lock0 "tokA" true, w')
  /\ calm (hd Idle (script w')) = true
  /\ exists w'',
       FileLock.release (lock0 "tokA" true) w' = (Return tt, self, w'')
       /\ fs w'' = Dir None
       /\ lease w'' = None
       /\ calls w'' = os_remove :: calls w'.
Proof.
  intros w self w'.
  assert (L : FileLock._lock self = false) by reflexivity.
  assert (A : FileLock.acquire 1 self None 100 w
              = Some (Return tt, lock0 "tokA" true, w'))
    by (vm_compute; reflexivity).
  assert (C : calm (hd Idle (script w')) = true) by reflexivity.
  split; [exact L|]. split; [exact A|]. split; [exact C|].
  exact (acquire_then_release_leaves_no_file 1 self _ None 100 w w' L A C).
Defined.

(** ** Waiting for a lease that somebody holds *)

(** One turn of the loop when the lease file is there and nobody else
    touches it; [now] is the clock reading of line 175. *)
Lemma poll_quiet_present (self : FileLock.t) (dl : option Z) (pi : Z)
    (w : World) (f : File) :
  quiet w ->
  fs w = Dir (Some f) ->
  let now := now_after 2 w in
  match FileLock.poll self dl pi w with
  | FileLock.Throw e w' =>
      fs w' = Dir (Some f) /\ quiet w'
      /\ ((e = FileLock.timeout_error self /\ expired now dl = true)
          \/ (e = ValueError /\ expired now dl = false
              /\ now < st_mtime f + FileLock.stale self /\ pi < 0
              /\ calls w'
                 = os_stat :: time_time :: open_x (FileLock.id self)
                   :: calls w))
  | FileLock.Break w' =>
      expired now dl = false
      /\ st_mtime f + FileLock.stale self <= now
      /\ quiet w'
      /\ fs w' = Dir (Some (mkFile (FileLock.id self) (clock w')))
  | FileLock.Continue w' =>
      expired now dl = false
      /\ now < st_mtime f + FileLock.stale self
      /\ 0 <= pi
      /\ quiet w'
      /\ fs w' = Dir (Some f)
      /\ clock w' = now_after 4 w + pi
      /\ calls w'
         = time_sleep pi :: os_stat :: time_time
           :: open_x (FileLock.id self) :: calls w
  end.
Proof.
  intros Q F now. unfold FileLock.poll.
  rewrite (open_x_quiet_exists _ _ f Q F).
  set (w1 := after (open_x (FileLock.id self)) w).
  assert (Q1 : quiet w1) by (apply quiet_after, Q).
  assert (F1 : fs w1 = Dir (Some f)) by (unfold w1; rewrite fs_after; auto).
  rewrite sys_time_eq.
  set (w2 := after time_time w1).
  assert (Q2 : quiet w2) by (apply quiet_after, Q1).
  assert (F2 : fs w2 = Dir (Some f)) by (unfold w2; rewrite fs_after; auto).
  assert (T : clock w2 = now).
  { unfold w2, w1, now. rewrite <- now_after_0. now rewrite !now_after_after. }
  rewrite T. destruct (expired now dl) eqn:E.
  - split; [exact F2|]. split; [exact Q2|]. left. now split.
  - rewrite (stat_quiet _ f Q2 F2).
    set (w3 := after os_stat w2).
    assert (Q3 : quiet w3) by (apply quiet_after, Q2).
    assert (F3 : fs w3 = Dir (Some f)) by (unfold w3; rewrite fs_after; auto).
    destruct (st_mtime f + FileLock.stale self <=? now) eqn:S.
    + rewrite (open_w_quiet _ _ _ Q3 F3). apply Z.leb_le in S.
      split; [reflexivity|]. split; [exact S|].
      split; [apply quiet_set_fs, quiet_after, Q3 | reflexivity].
    + apply Z.leb_gt in S. unfold sys_sleep.
      destruct (pi <? 0) eqn:P.
      * apply Z.ltb_lt in P. split; [exact F3|]. split; [exact Q3|].
        right. repeat split; auto.
      * apply Z.ltb_ge in P. rewrite (quiet_enter _ _ Q3).
        split; [reflexivity|]. split; [exact S|]. split; [exact P|].
        split; [exact (quiet_after (time_sleep pi) w3 Q3)|].
        split; [cbn [fs]; rewrite fs_after; auto|].
        split; [|reflexivity].
        cbn [clock]. unfold now_after at 1. f_equal.
        rewrite <- (now_after_0 (after (time_sleep pi) w3)).
        unfold w3, w2, w1. now rewrite !now_after_after.
Qed.

(** The loop against a lease file that is there, with a deadline [d] and a
    positive poll interval, nobody else around: [n] turns of sleeping are
    enough to reach the deadline, and what comes out is the lock, taken
    over once stale, or LockTimeoutError. *)
Lemma loop_waits (self : FileLock.t) (d pi : Z) (f : File) :
  0 < pi ->
  forall (n : nat) (w : World),
  quiet w ->
  fs w = Dir (Some f) ->
  d - clock w <= Z.of_nat n * pi ->
  forall fuel, (n < fuel)%nat ->
  exists w',
    (FileLock.acquire_loop fuel self (Some d) pi w = Some (Return tt, w')
     /\ fs w' = Dir (Some (mkFile (FileLock.id self) (clock w')))
     /\ st_mtime f + FileLock.stale self < d)
    \/ (FileLock.acquire_loop fuel self (Some d) pi w
        = Some (Raise (FileLock.timeout_error self), w')
        /\ fs w' = Dir (Some f)).
Proof.
  intros Pi. induction n as [|n IH]; intros w Q F D fuel Lt;
    (destruct fuel as [|k]; [lia|]); cbn [FileLock.acquire_loop];
    pose proof (poll_quiet_present self (Some d) pi w f Q F) as P;
    cbv zeta in P; cbn [expired] in P;
    pose proof (now_after_mono 0 2 w ltac:(lia)) as M2;
    pose proof (now_after_mono 2 4 w ltac:(lia)) as M4;
    rewrite now_after_0 in M2;
    destruct (FileLock.poll self (Some d) pi w) as [w1|w1|e w1].
  - destruct P as (E & S & _ & F1). apply Z.leb_gt in E.
    exists w1. left. repeat split; [exact F1 | lia].
  - destruct P as (E & _). apply Z.leb_gt in E. lia.
  - destruct P as (F1 & _ & [[-> _]|(_ & _ & _ & N & _)]); [|lia].
    exists w1. right. now split.
  - destruct P as (E & S & _ & F1). apply Z.leb_gt in E.
    exists w1. left. repeat split; [exact F1 | lia].
  - destruct P as (_ & _ & _ & Q1 & F1 & C1 & _).
    apply (IH w1 Q1 F1); [|lia]. rewrite C1. nia.
  - destruct P as (F1 & _ & [[-> _]|(_ & _ & _ & N & _)]); [|lia].
    exists w1. right. now split.
Qed.

(** The lines before the loop, when the lease file is there and nobody else
    touches it: the clock is read if the timeout is not negative, makedirs
    finds the directory. *)
Lemma prologue_quiet (tm : Z) (w : World) (f : File) :
  quiet w ->
  fs w = Dir (Some f) ->
  let k := if 0 <=? tm then 1%nat else 0%nat in
  exists w2,
    sys_makedirs (snd (FileLock.deadline tm w)) = (inl FileExistsError, w2)
    /\ quiet w2
    /\ fs w2 = Dir (Some f)
    /\ (forall n, now_after n w2 = now_after (k + 1 + n) w)
    /\ fst (FileLock.deadline tm w)
       = (if 0 <=? tm then Some (now_after 1 w + tm) else None)
    /\ calls w2
       = os_makedirs :: (if 0 <=? tm then [time_time] else []) ++ calls w.
Proof.
  intros Q F k. subst k. unfold FileLock.deadline.
  destruct (0 <=? tm).
  - rewrite sys_time_eq. cbn [fst snd].
    set (w1 := after time_time w).
    assert (Q1 : quiet w1) by (apply quiet_after, Q).
    assert (F1 : fs w1 = Dir (Some f)) by (unfold w1; rewrite fs_after; auto).
    rewrite (makedirs_quiet _ _ Q1 F1). eexists. split; [reflexivity|].
    split; [apply quiet_after, Q1|]. split; [rewrite fs_after; auto|].
    split; [|split; [|reflexivity]].
    + intros n. unfold w1. now rewrite !now_after_after.
    + unfold w1. now rewrite clock_after.
  - cbn [fst snd]. rewrite (makedirs_quiet _ _ Q F). eexists.
    split; [reflexivity|]. split; [apply quiet_after, Q|].
    split; [rewrite fs_after; auto|]. split; [|split; reflexivity].
    intros n. now rewrite !now_after_after.
Qed.

Lemma acquire_waits
    (self : FileLock.t) (tmo : option Z) (pi : Z) (w : World) (f : File) :
  let tm := match tmo with Some x => x | None => FileLock.timeout self end in
  FileLock._lock self = false ->
  quiet w ->
  fs w = Dir (Some f) ->
  0 <= tm ->
  0 < pi ->
  forall fuel, tm / pi + 1 < Z.of_nat fuel ->
  exists w',
    (FileLock.acquire fuel self tmo pi w
     = Some (Return tt, FileLock.set_lock true self, w')
     /\ fs w' = Dir (Some (mkFile (FileLock.id self) (clock w')))
     /\ st_mtime f + FileLock.stale self < now_after 1 w + tm)
    \/ (FileLock.acquire fuel self tmo pi w
        = Some (Raise (FileLock.timeout_error self), self, w')
        /\ fs w' = Dir (Some f)).
Proof.
  intros tm L Q F T Pi fuel Fu.
  destruct (prologue_quiet tm w f Q F) as (w2 & M & Q2 & F2 & N & D & _).
  assert (T' : (0 <=? tm) = true) by now apply Z.leb_le.
  rewrite T' in *. cbn [Nat.add] in N.
  unfold FileLock.acquire. rewrite L. fold tm.
  rewrite (surjective_pairing (FileLock.deadline tm w)), D, M.
  assert (B : now_after 1 w + tm - clock w2
              <= Z.of_nat (Z.to_nat (tm / pi + 1)) * pi).
  { rewrite <- now_after_0, N.
    pose proof (now_after_mono 1 2 w ltac:(lia)).
    pose proof (Z.div_pos tm pi T Pi).
    pose proof (Z.mul_succ_div_gt tm pi Pi).
    rewrite Z2Nat.id by lia. cbn [Nat.add]. nia. }
  assert (Lt : (Z.to_nat (tm / pi + 1) < fuel)%nat).
  { pose proof (Z.div_pos tm pi T Pi). lia. }
  destruct (loop_waits self (now_after 1 w + tm) pi f Pi _ w2 Q2 F2 B fuel Lt)
    as [w' [(A & F' & S)|(A & F')]]; exists w'; rewrite A.
  - left. repeat split; assumption.
  - right. split; [reflexivity | exact F'].
Qed.

(** X5.  The lock object is not Held, the lease file is there, nobody else
    touches it, the timeout is not negative and the poll interval is
    positive.  Then [acquire] returns: [timeout / poll_interval + 2] turns
    of the loop are enough.  It returns Held with its id in the file, or it
    raises LockTimeoutError with the file as it was. *)
Theorem acquire_returns_within_timeout
    (self : FileLock.t) (tmo : option Z) (pi : Z) (w : World) (f : File)
    (fuel : nat) :
  let tm := match tmo with Some x => x | None => FileLock.timeout self end in
  FileLock._lock self = false ->
  quiet w ->
  fs w = Dir (Some f) ->
  0 <= tm ->
  0 < pi ->
  tm / pi + 1 < Z.of_nat fuel ->
  exists w',
    (FileLock.acquire fuel self tmo pi w
     = Some (Return tt, FileLock.set_lock true self, w')
     /\ fs w' = Dir (Some (mkFile (FileLock.id self) (clock w'))))
    \/ (FileLock.acquire fuel self tmo pi w
        = Some (Raise (FileLock.timeout_error self), self, w')
        /\ fs w' = Dir (Some f)).
Proof.
  intros tm L Q F T Pi Fu.
  destruct (acquire_waits self tmo pi w f L Q F T Pi fuel Fu)
    as [w' [(A & F' & _)|H]]; exists w'; [left; now split | right; exact H].
Qed.

Lemma acquire_returns_within_timeout_witness :
  let w := world0 (Dir (Some (mkFile "tokA" 1000))) 2000 [Pass 10] in
  let self := lock0 "tokB" false in
  FileLock._lock self = false
  /\ quiet w
  /\ fs w = Dir (Some (mkFile "tokA" 1000))
  /\ 0 <= 250
  /\ 0 < 100
  /\ 250 / 100 + 1 < Z.of_nat 4
  /\ exists w',
       (FileLock.acquire 4 self (Some 250) 100 w
        = Some (Return tt, FileLock.set_lock true self, w')
        /\ fs w' = Dir (Some (mkFile (FileLock.id self) (clock w'))))
       \/ (FileLock.acquire 4 self (Some 250) 100 w
           = Some (Raise (FileLock.timeout_error self), self, w')
           /\ fs w' = Dir (Some (mkFile "tokA" 1000))).
Proof.
  intros w self.
  assert (L : FileLock._lock self = false) by reflexivity.
  assert (Q : quiet w) by reflexivity.
  assert (F : fs w = Dir (Some (mkFile "tokA" 1000))) by reflexivity.
  assert (T : 0 <= 250) by lia.
  assert (P : 0 < 100) by lia.
  assert (B : 250 / 100 + 1 < Z.of_nat 4) by (vm_compute; reflexivity).
  repeat (split; [assumption|]).
  exact (acquire_returns_within_timeout self (Some 250) 100 w _ 4 L Q F T P B).
Defined.

(** X6.  A lease that stays fresh until the deadline is not touched.  The
    lock object is not Held, the lease file is there, nobody else touches
    it, the poll interval is positive, and the deadline (the first clock
    reading plus the timeout) comes no later than the instant the file
    turns stale.  Then [acquire] raises LockTimeoutError, the object is not
    Held, and the file, content and modification time, is as it was. *)
Theorem acquire_respects_fresh_lease
    (self : FileLock.t) (tmo : option Z) (pi : Z) (w : World) (f : File)
    (fuel : nat) :
  let tm := match tmo with Some x => x | None => FileLock.timeout self end in
  FileLock._lock self = false ->
  quiet w ->
  fs w = Dir (Some f) ->
  0 <= tm ->
  0 < pi ->
  tm / pi + 1 < Z.of_nat fuel ->
  now_after 1 w + tm <= st_mtime f + FileLock.stale self ->
  exists w',
    FileLock.acquire fuel self tmo pi w
    = Some (Raise (FileLock.timeout_error self), self, w')
    /\ fs w' = Dir (Some f).
Proof.
  intros tm L Q F T Pi Fu S.
  destruct (acquire_waits self tmo pi w f L Q F T Pi fuel Fu)
    as [w' [(_ & _ & C)|H]]; [fold tm in C; lia|].
  exists w'. exact H.
Qed.

Lemma acquire_respects_fresh_lease_witness :
  let w := world0 (Dir (Some (mkFile "tokA" 1000))) 2000 [Pass 10] in
  let self := lock0 "tokB" false in
  FileLock._lock self = false
  /\ quiet w
  /\ fs w = Dir (Some (mkFile "tokA" 1000))
  /\ 0 <= 250
  /\ 0 < 100
  /\ 250 / 100 + 1 < Z.of_nat 4
  /\ 2010 + 250 <= 1000 + 60000
  /\ exists w',
       FileLock.acquire 4 self (Some 250) 100 w
       = Some (Raise (FileLock.timeout_error self), self, w')
       /\ fs w' = Dir (Some (mkFile "tokA" 1000)).
Proof.
  intros w self.
  assert (L : FileLock._lock self = false) by reflexivity.
  assert (Q : quiet w) by reflexivity.
  assert (F : fs w = Dir (Some (mkFile "tokA" 1000))) by reflexivity.
  assert (T : 0 <= 250) by lia.
  assert (P : 0 < 100) by lia.
  assert (B : 250 / 100 + 1 < Z.of_nat 4) by (vm_compute; reflexivity).
  assert (S : 2010 + 250 <= 1000 + 60000) by lia.
  repeat (split; [assumption|]).
  exact (acquire_respects_fresh_lease self (Some 250) 100 w _ 4
           L Q F T P B S).
Defined.

(** X7.  A negative poll interval is not checked on entry; it shows only
    when the loop has to sleep.  The lock object is not Held, the lease file
    is there and fresh at the clock reading [now] of the first turn, the
    deadline has not passed then, nobody else touches the file.  Then
    [acquire] raises the ValueError of [time.sleep], which is no LockError;
    the object is not Held and the file is as it was. *)
Theorem acquire_negative_poll_interval
    (fuel : nat) (self : FileLock.t) (tmo : option Z) (pi : Z)
    (w : World) (f : File) :
  let tm := match tmo with Some x => x | None => FileLock.timeout self end in
  let k := if 0 <=? tm then 1%nat else 0%nat in
  let now := now_after (k + 3) w in
  FileLock._lock self = false ->
  quiet w ->
  fs w = Dir (Some f) ->
  pi < 0 ->
  expired now (fst (FileLock.deadline tm w)) = false ->
  now < st_mtime f + FileLock.stale self ->
  exists w',
    FileLock.acquire (S fuel) self tmo pi w
    = Some (Raise ValueError, self, w')
    /\ isinstance ValueError LockError = false
    /\ fs w' = Dir (Some f)
    /\ calls w'
       = [os_stat; time_time; open_x (FileLock.id self); os_makedirs]
         ++ (if 0 <=? tm then [time_time] else []) ++ calls w.
Proof.
  intros tm k now L Q F Pi E S.
  destruct (prologue_quiet tm w f Q F) as (w2 & M & Q2 & F2 & N & _ & C).
  fold k in N.
  pose proof (poll_quiet_present self (fst (FileLock.deadline tm w)) pi
                w2 f Q2 F2) as P.
  cbv zeta in P. rewrite N in P.
  replace (k + 1 + 2)%nat with (k + 3)%nat in P by lia. fold now in P.
  unfold FileLock.acquire. rewrite L. fold tm.
  rewrite (surjective_pairing (FileLock.deadline tm w)), M.
  cbn [FileLock.acquire_loop].
  destruct (FileLock.poll self (fst (FileLock.deadline tm w)) pi w2)
    as [w1|w1|e w1].
  - destruct P as (_ & S' & _). lia.
  - destruct P as (_ & _ & P0 & _). lia.
  - destruct P as (F1 & _ & [[_ E']|(-> & _ & _ & _ & C1)]); [congruence|].
    exists w1. split; [reflexivity|]. split; [reflexivity|].
    split; [exact F1|]. rewrite C1, C. reflexivity.
Qed.

Lemma acquire_negative_poll_interval_witness :
  let w := world0 (Dir (Some (mkFile "tokA" 1000))) 2000 [Pass 10] in
  let self := lock0 "tokB" false in
  FileLock._lock self = false
  /\ quiet w
  /\ fs w = Dir (Some (mkFile "tokA" 1000))
  /\ -1 < 0
  /\ expired 2010 (Some 7010) = false
  /\ 2010 < 1000 + 60000
  /\ exists w',
       FileLock.acquire 1 self None (-1) w
       = Some (Raise ValueError, self, w')
       /\ isinstance ValueError LockError = false
       /\ fs w' = Dir (Some (mkFile "tokA" 1000))
       /\ calls w' = [os_stat; time_time; open_x "tokB"; os_makedirs;
                      time_time].
Proof.
  intros w self.
  assert (L : FileLock._lock self = false) by reflexivity.
  assert (Q : quiet w) by reflexivity.
  assert (F : fs w = Dir (Some (mkFile "tokA" 1000))) by reflexivity.
  assert (P : -1 < 0) by lia.
  assert (E : expired 2010 (Some 7010) = false) by reflexivity.
  assert (S : 2010 < 1000 + 60000) by lia.
  repeat (split; [assumption|]).
  exact (acquire_negative_poll_interval 0 self None (-1) w _ L Q F P E S).
Defined.

(** ** Taking a stale lease over is not atomic *)

Lemma script_after (c : Call) (w : World) :
  script (after c w) = tl (script w).
Proof. reflexivity. Qed.

Lemma clock_after_head (c : Call) (w : World) :
  clock (after c w) = clock w + lapse (hd Idle (script w)).
Proof. reflexivity. Qed.

(** X8.  The turn that takes a stale lease over reads the modification
    time and then writes, in two calls.  Let the file be stale at the clock
    reading [now] and the deadline not passed, let nothing disturb the
    exclusive create, the clock reading and the stat, and let another
    process write its own token [tok] into the file between the stat and
    the write.  The turn still ends in [break]: the loop returns, the file
    holds the id of this object, and the token [tok], written at that very
    instant, is lost without any error. *)
Theorem reclaim_overwrites_concurrent_claim
    (fuel : nat) (self : FileLock.t) (dl : option Z) (pi : Z) (w : World)
    (f : File) (tok : string) (e1 e2 e3 : Event) (rest : list Event) :
  let now := clock w + lapse e1 + lapse e2 in
  let w3 := snd (sys_stat (snd (sys_time
                   (snd (sys_open_x (FileLock.id self) w))))) in
  script w = e1 :: e2 :: e3 :: Claim tok :: rest ->
  calm e1 = true -> calm e2 = true -> calm e3 = true ->
  fs w = Dir (Some f) ->
  expired now dl = false ->
  st_mtime f + FileLock.stale self <= now ->
  exists w',
    FileLock.acquire_loop (S fuel) self dl pi w = Some (Return tt, w')
    /\ fs (after (open_w (FileLock.id self)) w3)
       = Dir (Some (mkFile tok (clock w')))
    /\ fs w' = Dir (Some (mkFile (FileLock.id self) (clock w')))
    /\ calls w'
       = [open_w (FileLock.id self); os_stat; time_time;
          open_x (FileLock.id self)] ++ calls w.
Proof.
  intros now w3 Sc C1 C2 C3 F E S.
  assert (H1 : calm (hd Idle (script w)) = true) by (now rewrite Sc).
  destruct (enter_calm_head (open_x (FileLock.id self)) w H1) as [En1 F1].
  set (w1 := after (open_x (FileLock.id self)) w) in *.
  assert (S1 : script w1 = e2 :: e3 :: Claim tok :: rest)
    by (unfold w1; rewrite script_after, Sc; reflexivity).
  assert (K1 : clock w1 = clock w + lapse e1)
    by (unfold w1; rewrite clock_after_head, Sc; reflexivity).
  assert (X : sys_open_x (FileLock.id self) w = (inl FileExistsError, w1)).
  { unfold sys_open_x. rewrite En1. fold w1. now rewrite F1, F. }
  assert (H2 : calm (hd Idle (script w1)) = true) by (now rewrite S1).
  destruct (enter_calm_head time_time w1 H2) as [_ F2].
  set (w2 := after time_time w1) in *.
  assert (S2 : script w2 = e3 :: Claim tok :: rest)
    by (unfold w2; rewrite script_after, S1; reflexivity).
  assert (K2 : clock w2 = now)
    by (unfold w2, now; rewrite clock_after_head, S1, K1; reflexivity).
  assert (H3 : calm (hd Idle (script w2)) = true) by (now rewrite S2).
  destruct (enter_calm_head os_stat w2 H3) as [En3 F3].
  set (w3' := after os_stat w2) in *.
  assert (St : sys_stat w2 = (inr (st_mtime f), w3')).
  { unfold sys_stat. rewrite En3. fold w3'. now rewrite F3, F2, F1, F. }
  assert (S3 : script w3' = Claim tok :: rest)
    by (unfold w3'; rewrite script_after, S2; reflexivity).
  assert (W3 : w3 = w3').
  { unfold w3. rewrite X. cbn [snd]. rewrite sys_time_eq. cbn [snd].
    fold w2. now rewrite St. }
  assert (En4 : enter (open_w (FileLock.id self)) w3'
                = (false, after (open_w (FileLock.id self)) w3'))
    by (unfold after, enter; rewrite S3; reflexivity).
  assert (F4 : fs (after (open_w (FileLock.id self)) w3')
               = Dir (Some (mkFile tok
                              (clock (after (open_w (FileLock.id self)) w3')))))
    by (unfold after, enter; rewrite S3; reflexivity).
  assert (P : FileLock.poll self dl pi w
              = FileLock.Break
                  (set_fs (Dir (Some (mkFile (FileLock.id self)
                             (clock (after (open_w (FileLock.id self)) w3')))))
                          (after (open_w (FileLock.id self)) w3'))).
  { unfold FileLock.poll. rewrite X, sys_time_eq. fold w2.
    rewrite K2, E, St. apply Z.leb_le in S. rewrite S.
    unfold sys_open_w. rewrite En4, F4. reflexivity. }
  eexists. cbn [FileLock.acquire_loop]. rewrite P.
  split; [reflexivity|]. rewrite W3. split; [exact F4|].
  split; reflexivity.
Qed.

Lemma reclaim_overwrites_concurrent_claim_witness :
  let w :=
    world0 (Dir (Some (mkFile "tokA" 0))) 61000
           [Idle; Pass 5; Idle; Claim "tokC"] in
  let self := lock0 "tokB" false in
  script w = [Idle; Pass 5; Idle; Claim "tokC"]
  /\ calm Idle = true /\ calm (Pass 5) = true
  /\ fs w = Dir (Some (mkFile "tokA" 0))
  /\ expired (61000 + 0 + 5) None = false
  /\ 0 + 60000 <= 61000 + 0 + 5
  /\ exists w',
       FileLock.acquire_loop 1 self None 100 w = Some (Return tt, w')
       /\ fs w' = Dir (Some (mkFile "tokB" (clock w'))).
Proof.
  intros w self.
  assert (Sc : script w = [Idle; Pass 5; Idle; Claim "tokC"]) by reflexivity.
  assert (C1 : calm Idle = true) by reflexivity.
  assert (C2 : calm (Pass 5) = true) by reflexivity.
  assert (F : fs w = Dir (Some (mkFile "tokA" 0))) by reflexivity.
  assert (E : expired (61000 + 0 + 5) None = false) by reflexivity.
  assert (S : 0 + 60000 <= 61000 + 0 + 5) by lia.
  repeat (split; [assumption|]).
  destruct (reclaim_overwrites_concurrent_claim 0 self None 100 w _
              "tokC" Idle (Pass 5) Idle [] Sc C1 C2 C1 F E S)
    as (w' & A & _ & F' & _).
  exists w'. split; [exact A | exact F'].
Defined.

(** ** C6: no deadline *)

(** A turn that takes a stale lease over, nobody else around: the calls it
    made and the clock it leaves. *)
Lemma poll_quiet_reclaim (self : FileLock.t) (dl : option Z) (pi : Z)
    (w w' : World) (f : File) :
  quiet w ->
  fs w = Dir (Some f) ->
  FileLock.poll self dl pi w = FileLock.Break w' ->
  calls w'
  = open_w (FileLock.id self) :: os_stat :: time_time
    :: open_x (FileLock.id self) :: calls w
  /\ clock w' = now_after 4 w.
Proof.
  intros Q F. unfold FileLock.poll.
  rewrite (open_x_quiet_exists _ _ f Q F).
  set (w1 := after (open_x (FileLock.id self)) w).
  assert (Q1 : quiet w1) by (apply quiet_after, Q).
  assert (F1 : fs w1 = Dir (Some f)) by (unfold w1; rewrite fs_after; auto).
  rewrite sys_time_eq.
  set (w2 := after time_time w1).
  assert (Q2 : quiet w2) by (apply quiet_after, Q1).
  assert (F2 : fs w2 = Dir (Some f)) by (unfold w2; rewrite fs_after; auto).
  destruct (expired (clock w2) dl); [discriminate|].
  rewrite (stat_quiet _ f Q2 F2).
  set (w3 := after os_stat w2).
  assert (Q3 : quiet w3) by (apply quiet_after, Q2).
  assert (F3 : fs w3 = Dir (Some f)) by (unfold w3; rewrite fs_after; auto).
  destruct (st_mtime f + FileLock.stale self <=? clock w2).
  - rewrite (open_w_quiet _ _ _ Q3 F3). intros E. inversion E.
    split; [reflexivity|]. cbn [clock set_fs].
    rewrite <- now_after_0. unfold w3, w2, w1.
    now rewrite !now_after_after.
  - destruct (sys_sleep pi w3) as [[[]|e] w4]; discriminate.
Qed.

(** The loop without a deadline against a lease file that is there, nobody
    else around, poll interval positive: once [n] sleeps are enough for the
    clock to reach the stale instant, the loop has taken the lease over. *)
Lemma loop_reclaims (self : FileLock.t) (pi : Z) (f : File) :
  0 < pi ->
  forall (n : nat) (w : World),
  quiet w ->
  fs w = Dir (Some f) ->
  st_mtime f + FileLock.stale self - clock w <= Z.of_nat n * pi ->
  forall fuel, (n < fuel)%nat ->
  exists w',
    FileLock.acquire_loop fuel self None pi w = Some (Return tt, w')
    /\ fs w' = Dir (Some (mkFile (FileLock.id self) (clock w')))
    /\ st_mtime f + FileLock.stale self <= clock w'
    /\ hd_error (calls w') = Some (open_w (FileLock.id self)).
Proof.
  intros Pi. induction n as [|n IH]; intros w Q F D fuel Lt;
    (destruct fuel as [|k]; [lia|]); cbn [FileLock.acquire_loop];
    pose proof (poll_quiet_present self None pi w f Q F) as P;
    cbv zeta in P; cbn [expired] in P;
    pose proof (now_after_mono 0 2 w ltac:(lia)) as M2;
    pose proof (now_after_mono 2 4 w ltac:(lia)) as M4;
    rewrite now_after_0 in M2;
    destruct (FileLock.poll self None pi w) as [w1|w1|e w1] eqn:B.
  - destruct P as (_ & S & _ & F1).
    destruct (poll_quiet_reclaim _ _ _ _ _ _ Q F B) as [C K].
    exists w1. split; [reflexivity|]. split; [exact F1|].
    split; [lia | now rewrite C].
  - destruct P as (_ & S & _). lia.
  - destruct P as (_ & _ & [[_ X]|(_ & _ & _ & N & _)]); [discriminate | lia].
  - destruct P as (_ & S & _ & F1).
    destruct (poll_quiet_reclaim _ _ _ _ _ _ Q F B) as [C K].
    exists w1. split; [reflexivity|]. split; [exact F1|].
    split; [lia | now rewrite C].
  - destruct P as (_ & _ & _ & Q1 & F1 & C1 & _).
    apply (IH w1 Q1 F1); [|lia]. rewrite C1. nia.
  - destruct P as (_ & _ & [[_ X]|(_ & _ & _ & N & _)]); [discriminate | lia].
Qed.

(** A turn against a fresh lease when the four coming events leave the file
    alone: the exclusive create fails, the clock is read, the file is
    found fresh, the loop sleeps and goes round. *)
Lemma poll_fresh_turn (self : FileLock.t) (pi : Z) (w : World) (f : File)
    (e1 e2 e3 e4 : Event) (s : list Event) :
  script w = e1 :: e2 :: e3 :: e4 :: s ->
  calm e1 = true -> calm e2 = true -> calm e3 = true -> calm e4 = true ->
  fs w = Dir (Some f) ->
  clock w + lapse e1 + lapse e2 < st_mtime f + FileLock.stale self ->
  0 <= pi ->
  exists w',
    FileLock.poll self None pi w = FileLock.Continue w'
    /\ script w' = s
    /\ fs w' = Dir (Some f)
    /\ clock w' = clock w + lapse e1 + lapse e2 + lapse e3 + lapse e4 + pi
    /\ calls w'
       = time_sleep pi :: os_stat :: time_time
         :: open_x (FileLock.id self) :: calls w.
Proof.
  intros Sc C1 C2 C3 C4 F S Pi.
  assert (H1 : calm (hd Idle (script w)) = true) by (now rewrite Sc).
  destruct (enter_calm_head (open_x (FileLock.id self)) w H1) as [En1 F1].
  set (w1 := after (open_x (FileLock.id self)) w) in *.
  assert (S1 : script w1 = e2 :: e3 :: e4 :: s)
    by (unfold w1; rewrite script_after, Sc; reflexivity).
  assert (K1 : clock w1 = clock w + lapse e1)
    by (unfold w1; rewrite clock_after_head, Sc; reflexivity).
  assert (X : sys_open_x (FileLock.id self) w = (inl FileExistsError, w1)).
  { unfold sys_open_x. rewrite En1. fold w1. now rewrite F1, F. }
  assert (H2 : calm (hd Idle (script w1)) = true) by (now rewrite S1).
  destruct (enter_calm_head time_time w1 H2) as [_ F2].
  set (w2 := after time_time w1) in *.
  assert (S2 : script w2 = e3 :: e4 :: s)
    by (unfold w2; rewrite script_after, S1; reflexivity).
  assert (K2 : clock w2 = clock w + lapse e1 + lapse e2)
    by (unfold w2; rewrite clock_after_head, S1, K1; reflexivity).
  assert (H3 : calm (hd Idle (script w2)) = true) by (now rewrite S2).
  destruct (enter_calm_head os_stat w2 H3) as [En3 F3].
  set (w3 := after os_stat w2) in *.
  assert (St : sys_stat w2 = (inr (st_mtime f), w3)).
  { unfold sys_stat. rewrite En3. fold w3. now rewrite F3, F2, F1, F. }
  assert (S3 : script w3 = e4 :: s)
    by (unfold w3; rewrite script_after, S2; reflexivity).
  assert (K3 : clock w3 = clock w + lapse e1 + lapse e2 + lapse e3)
    by (unfold w3; rewrite clock_after_head, S2, K2; reflexivity).
  assert (H4 : calm (hd Idle (script w3)) = true) by (now rewrite S3).
  destruct (enter_calm_head (time_sleep pi) w3 H4) as [En4 F4].
  set (w4 := after (time_sleep pi) w3) in *.
  assert (S4 : script w4 = s)
    by (unfold w4; rewrite script_after, S3; reflexivity).
  assert (K4 : clock w4
               = clock w + lapse e1 + lapse e2 + lapse e3 + lapse e4)
    by (unfold w4; rewrite clock_after_head, S3, K3; reflexivity).
  eexists. split.
  - unfold FileLock.poll. rewrite X, sys_time_eq. fold w2.
    cbn [expired]. rewrite St.
    assert (Fr : (st_mtime f + FileLock.stale self <=? clock w2) = false)
      by (apply Z.leb_gt; rewrite K2; exact S).
    rewrite Fr. unfold sys_sleep.
    assert (P : (pi <? 0) = false) by (now apply Z.ltb_ge).
    rewrite P, En4. fold w4. reflexivity.
  - cbn [script fs clock calls].
    split; [exact S4|]. split; [now rewrite F4, F3, F2, F1|].
    split; [now rewrite K4 | reflexivity].
Qed.

(** The turn in which the exclusive create comes right after another
    holder has removed the file. *)
Lemma poll_released_turn (self : FileLock.t) (dl : option Z) (pi : Z)
    (w : World) (f : File) (rest : list Event) :
  script w = Unlink :: rest ->
  fs w = Dir (Some f) ->
  exists w',
    FileLock.poll self dl pi w = FileLock.Break w'
    /\ script w' = rest
    /\ fs w' = Dir (Some (mkFile (FileLock.id self) (clock w')))
    /\ clock w' = clock w
    /\ calls w' = open_x (FileLock.id self) :: calls w.
Proof.
  intros Sc F. unfold FileLock.poll, sys_open_x, enter.
  rewrite Sc, F. cbn. eexists. split; [reflexivity|]. cbn.
  rewrite Z.add_0_r. repeat split.
Qed.

(** The loop without a deadline while another holder has the lease: the
    events of [pre], four for each of [n] turns, leave the file alone and
    the file is fresh all along; then the holder releases. *)
Lemma loop_until_released (self : FileLock.t) (pi : Z) (f : File)
    (rest : list Event) :
  0 <= pi ->
  forall (n : nat) (pre : list Event) (w : World),
  script w = pre ++ Unlink :: rest ->
  forallb calm pre = true ->
  length pre = (4 * n)%nat ->
  fs w = Dir (Some f) ->
  clock w + elapsed (length pre) pre + Z.of_nat n * pi
  < st_mtime f + FileLock.stale self ->
  forall fuel, (n < fuel)%nat ->
  exists w',
    FileLock.acquire_loop fuel self None pi w = Some (Return tt, w')
    /\ script w' = rest
    /\ fs w' = Dir (Some (mkFile (FileLock.id self) (clock w')))
    /\ clock w' = clock w + elapsed (length pre) pre + Z.of_nat n * pi
    /\ hd_error (calls w') = Some (open_x (FileLock.id self)).
Proof.
  intros Pi. induction n as [|n IH]; intros pre w Sc C Len F Fr fuel Lt;
    (destruct fuel as [|k]; [lia|]); cbn [FileLock.acquire_loop].
  - destruct pre; [|discriminate Len]. cbn [app] in Sc.
    destruct (poll_released_turn self None pi w f rest Sc F)
      as (w' & P & S' & F' & K' & C').
    rewrite P. exists w'. split; [reflexivity|]. split; [exact S'|].
    split; [exact F'|]. split; [cbn; lia | now rewrite C'].
  - destruct pre as [|e1 [|e2 [|e3 [|e4 pre]]]]; try (cbn in Len; lia).
    cbn [forallb] in C.
    apply andb_true_iff in C. destruct C as [C1 C].
    apply andb_true_iff in C. destruct C as [C2 C].
    apply andb_true_iff in C. destruct C as [C3 C].
    apply andb_true_iff in C. destruct C as [C4 C].
    cbn [length elapsed] in Fr |- *.
    pose proof (lapse_nonneg e3). pose proof (lapse_nonneg e4).
    pose proof (elapsed_nonneg (length pre) pre).
    destruct (poll_fresh_turn self pi w f e1 e2 e3 e4
                (pre ++ Unlink :: rest) Sc C1 C2 C3 C4 F ltac:(nia) Pi)
      as (w1 & P & S1 & F1 & K1 & _).
    rewrite P.
    destruct (IH pre w1 S1 C ltac:(cbn in Len; lia) F1 ltac:(nia)
                k ltac:(lia)) as (w' & A & S' & F' & K' & C').
    exists w'. split; [exact A|]. split; [exact S'|]. split; [exact F'|].
    split; [lia | exact C'].
Qed.

(** C6.  With a negative timeout (given, or the default of the object):
    - the deadline computed on line 160 is float('inf'), and the clock is
      not even read for it;
    - whatever the world and the other processes do, and however long the
      loop runs, [acquire] never ends in LockTimeoutError;
    - the lease file is there and nobody else touches it, the poll interval
      is positive: the loop sleeps until the file is stale and takes it
      over; once [n] sleeps reach the stale instant, any fuel above [n]
      gives the result, the object Held, the file written by the plain
      write with its id, not before the stale instant;
    - another holder has the lease: the coming events leave the file alone
      and it stays fresh during makedirs and [n] turns of the loop, then
      the holder removes the file.  The loop sleeps [n] times, the next
      exclusive create succeeds, [acquire] returns and the object is Held,
      the file holding its id. *)
Theorem acquire_without_deadline
    (self : FileLock.t) (tmo : option Z) (pi : Z) (w : World) :
  let tm := match tmo with Some x => x | None => FileLock.timeout self end in
  tm < 0 ->
  FileLock.deadline tm w = (None, w)
  /\ (forall fuel r self' w',
        FileLock.acquire fuel self tmo pi w = Some (r, self', w') ->
        raises r LockTimeoutError = false)
  /\ (forall f n fuel,
        FileLock._lock self = false ->
        quiet w ->
        fs w = Dir (Some f) ->
        0 < pi ->
        st_mtime f + FileLock.stale self - clock w <= Z.of_nat n * pi ->
        (n < fuel)%nat ->
        exists w',
          FileLock.acquire fuel self tmo pi w
          = Some (Return tt, FileLock.set_lock true self, w')
          /\ fs w' = Dir (Some (mkFile (FileLock.id self) (clock w')))
          /\ st_mtime f + FileLock.stale self <= clock w'
          /\ hd_error (calls w') = Some (open_w (FileLock.id self)))
  /\ (forall f n fuel e0 pre rest,
        FileLock._lock self = false ->
        fs w = Dir (Some f) ->
        script w = e0 :: pre ++ Unlink :: rest ->
        calm e0 = true ->
        forallb calm pre = true ->
        length pre = (4 * n)%nat ->
        0 <= pi ->
        clock w + lapse e0 + elapsed (length pre) pre + Z.of_nat n * pi
        < st_mtime f + FileLock.stale self ->
        (n < fuel)%nat ->
        exists w',
          FileLock.acquire fuel self tmo pi w
          = Some (Return tt, FileLock.set_lock true self, w')
          /\ script w' = rest
          /\ fs w' = Dir (Some (mkFile (FileLock.id self) (clock w')))
          /\ clock w'
             = clock w + lapse e0 + elapsed (length pre) pre
               + Z.of_nat n * pi
          /\ hd_error (calls w') = Some (open_x (FileLock.id self))).
Proof.
  intros tm Neg.
  assert (D : FileLock.deadline tm w = (None, w)).
  { unfold FileLock.deadline. apply Z.leb_gt in Neg. now rewrite Neg. }
  split; [exact D|]. split; [|split].
  - intros fuel r self' w'. unfold FileLock.acquire.
    destruct (FileLock._lock self).
    + intros E. inversion E. reflexivity.
    + fold tm. rewrite D.
      destruct (sys_makedirs w) as [[[]|[]] wm];
        try (intros E; inversion E; reflexivity);
        destruct (FileLock.acquire_loop fuel self None pi wm)
          as [[[[]|e] wl]|] eqn:L; intros E; inversion E; subst;
        try reflexivity;
        exact (loop_without_deadline _ _ _ _ _ _ L).
  - intros f n fuel L Q F Pi B Lt.
    assert (Q2 : quiet (after os_makedirs w)) by (apply quiet_after, Q).
    assert (F2 : fs (after os_makedirs w) = Dir (Some f))
      by (rewrite fs_after; auto).
    assert (B2 : st_mtime f + FileLock.stale self
                 - clock (after os_makedirs w) <= Z.of_nat n * pi).
    { rewrite clock_after. pose proof (now_after_mono 0 1 w ltac:(lia)) as M.
      rewrite now_after_0 in M. lia. }
    destruct (loop_reclaims self pi f Pi n _ Q2 F2 B2 fuel Lt)
      as (w' & A & F' & S' & C').
    exists w'. unfold FileLock.acquire. rewrite L. fold tm. rewrite D.
    rewrite (makedirs_quiet w _ Q F), A.
    split; [reflexivity|]. split; [exact F'|]. split; [exact S' | exact C'].
  - intros f n fuel e0 pre rest L F Sc C0 C Len Pi Fr Lt.
    assert (H0 : calm (hd Idle (script w)) = true) by (now rewrite Sc).
    destruct (enter_calm_head os_makedirs w H0) as [En0 F0].
    assert (M : sys_makedirs w
                = (inl FileExistsError, after os_makedirs w)).
    { unfold sys_makedirs. now rewrite En0, F0, F. }
    assert (S2 : script (after os_makedirs w) = pre ++ Unlink :: rest)
      by (rewrite script_after, Sc; reflexivity).
    assert (K2 : clock (after os_makedirs w) = clock w + lapse e0)
      by (rewrite clock_after_head, Sc; reflexivity).
    assert (F2 : fs (after os_makedirs w) = Dir (Some f))
      by (now rewrite F0).
    destruct (loop_until_released self pi f rest Pi n pre _ S2 C Len F2
                ltac:(rewrite K2; exact Fr) fuel Lt)
      as (w' & A & S' & F' & K' & C').
    exists w'. unfold FileLock.acquire. rewrite L. fold tm. rewrite D, M, A.
    split; [reflexivity|]. split; [exact S'|]. split; [exact F'|].
    split; [now rewrite K', K2 | exact C'].
Qed.

Lemma acquire_without_deadline_witness :
  let self := lock0 "tokB" false in
  let stale_soon := world0 (Dir (Some (mkFile "tokA" 1000))) 2000 [Pass 9] in
  let held :=
    world0 (Dir (Some (mkFile "tokA" 1000))) 2000
           [Idle; Idle; Idle; Idle; Pass 300; Unlink; Pass 1] in
  -1 < 0
  /\ FileLock._lock self = false
  /\ quiet stale_soon
  /\ fs stale_soon = Dir (Some (mkFile "tokA" 1000))
  /\ 0 < 30000
  /\ 1000 + 60000 - 2000 <= Z.of_nat 2 * 30000
  /\ (exists w',
        FileLock.acquire 3 self (Some (-1)) 30000 stale_soon
        = Some (Return tt, lock0 "tokB" true, w')
        /\ fs w' = Dir (Some (mkFile "tokB" (clock w')))
        /\ 1000 + 60000 <= clock w'
        /\ hd_error (calls w') = Some (open_w "tokB"))
  /\ script held = Idle :: [Idle; Idle; Idle; Pass 300] ++ Unlink :: [Pass 1]
  /\ forallb calm [Idle; Idle; Idle; Pass 300] = true
  /\ 0 <= 100
  /\ 2000 + 0 + 300 + Z.of_nat 1 * 100 < 1000 + 60000
  /\ (exists w',
        FileLock.acquire 2 self (Some (-1)) 100 held
        = Some (Return tt, lock0 "tokB" true, w')
        /\ script w' = [Pass 1]
        /\ fs w' = Dir (Some (mkFile "tokB" (clock w')))
        /\ clock w' = 2400
        /\ hd_error (calls w') = Some (open_x "tokB")).
Proof.
  intros self stale_soon held.
  assert (Neg : -1 < 0) by lia.
  assert (L : FileLock._lock self = false) by reflexivity.
  assert (Q : quiet stale_soon) by reflexivity.
  assert (F : fs stale_soon = Dir (Some (mkFile "tokA" 1000)))
    by reflexivity.
  assert (Pi : 0 < 30000) by lia.
  assert (B : 1000 + 60000 - 2000 <= Z.of_nat 2 * 30000)
    by (vm_compute; discriminate).
  assert (Sc : script held
               = Idle :: [Idle; Idle; Idle; Pass 300] ++ Unlink :: [Pass 1])
    by reflexivity.
  assert (C : forallb calm [Idle; Idle; Idle; Pass 300] = true)
    by reflexivity.
  assert (P0 : 0 <= 100) by lia.
  assert (Fr : 2000 + 0 + 300 + Z.of_nat 1 * 100 < 1000 + 60000)
    by (vm_compute; reflexivity).
  destruct (acquire_without_deadline self (Some (-1)) 30000 stale_soon Neg)
    as (_ & _ & R & _).
  destruct (acquire_without_deadline self (Some (-1)) 100 held Neg)
    as (_ & _ & _ & U).
  split; [exact Neg|]. split; [exact L|]. split; [exact Q|].
  split; [exact F|]. split; [exact Pi|]. split; [exact B|].
  split; [exact (R _ 2%nat 3%nat L Q F Pi B (le_n 3))|].
  split; [exact Sc|]. split; [exact C|]. split; [exact P0|].
  split; [exact Fr|].
  exact (U _ 1%nat 2%nat Idle [Idle; Idle; Idle; Pass 300] [Pass 1]
           L eq_refl Sc eq_refl C eq_refl P0 Fr (le_n 2)).
Defined.

(** ** The exception classes *)

(** X9.  The classes of lines 15 to 72 under [issubclass]: it is reflexive,
    transitive and antisymmetric; a class is a subclass of another exactly
    when it is that class or its base class is a subclass of it; every
    class derives from LockError; and no class is at once under two of
    LockAcquireError, LockExtendError and LockReleaseError, so a handler
    for one of the three never catches an error of the other two
    operations. *)
Theorem issubclass_is_the_hierarchy :
  (forall a, issubclass a a = true)
  /\ (forall a b c,
        issubclass a b = true -> issubclass b c = true ->
        issubclass a c = true)
  /\ (forall a b,
        issubclass a b = true -> issubclass b a = true -> a = b)
  /\ (forall a b,
        issubclass a b = true <->
        a = b \/ exists p, base a = Some p /\ issubclass p b = true)
  /\ (forall a, issubclass a LockError = true)
  /\ (forall a,
        issubclass a LockAcquireError && issubclass a LockExtendError = false
        /\ issubclass a LockAcquireError && issubclass a LockReleaseError
           = false
        /\ issubclass a LockExtendError && issubclass a LockReleaseError
           = false).
Proof.
  split; [intros a; destruct a; reflexivity|].
  split; [intros a b c; destruct a, b; try discriminate; destruct c;
          intros _ H; try discriminate H; reflexivity|].
  split; [intros a b; destruct a, b; intros H1 H2;
          try discriminate H1; try discriminate H2; reflexivity|].
  split.
  - intros a b. split.
    + destruct a, b; intros H; try discriminate H;
        try (left; reflexivity);
        right; eexists; split; reflexivity.
    + intros [->|(p & B & H)]; [destruct b; reflexivity|].
      destruct a; inversion B; subst; destruct b;
        try discriminate H; reflexivity.
  - split; intros a; destruct a; repeat split.
Qed.

Lemma issubclass_is_the_hierarchy_witness :
  issubclass LockRegenerateError LockGenerateError = true
  /\ issubclass LockGenerateError LockAcquireError = true
  /\ issubclass LockRegenerateError LockAcquireError = true
  /\ issubclass LockRegenerateError LockReleaseError = false.
Proof.
  destruct issubclass_is_the_hierarchy as (_ & T & _).
  assert (A : issubclass LockRegenerateError LockGenerateError = true)
    by reflexivity.
  assert (B : issubclass LockGenerateError LockAcquireError = true)
    by reflexivity.
  split; [exact A|]. split; [exact B|]. split; [exact (T _ _ _ A B)|].
  reflexivity.
Defined.

(** X10.  Whatever the world does, an exception raised by [release] is a
    LockReleaseError and one raised by [extend] is a LockExtendError, built
    with the name and the file of the lock and no id; neither is a
    LockAcquireError, and the two families do not meet.  Both leave the
    object as it was. *)
Theorem release_and_extend_errors (self : FileLock.t) (w : World) (e : exn) :
  (fst (fst (FileLock.release self w)) = Raise e ->
   snd (fst (FileLock.release self w)) = self
   /\ isinstance e LockReleaseError = true
   /\ isinstance e LockExtendError = false
   /\ isinstance e LockAcquireError = false
   /\ exists c msg,
        e = Lock c (mkArgs msg (Some (FileLock.name self))
                           (Some (FileLock.file self)) None))
  /\ (fst (fst (FileLock.extend self w)) = Raise e ->
      snd (fst (FileLock.extend self w)) = self
      /\ isinstance e LockExtendError = true
      /\ isinstance e LockReleaseError = false
      /\ isinstance e LockAcquireError = false
      /\ exists c msg,
           e = Lock c (mkArgs msg (Some (FileLock.name self))
                              (Some (FileLock.file self)) None)).
Proof.
  split.
  - unfold FileLock.release. destruct (negb (FileLock._lock self)).
    + cbn [fst snd]. intros E. inversion E. subst.
      repeat split. do 2 eexists. reflexivity.
    + destruct (sys_remove w) as [[[]|[]] w1]; cbn [fst snd]; intros E;
        inversion E; subst; repeat split; do 2 eexists; reflexivity.
  - unfold FileLock.extend. destruct (negb (FileLock._lock self)).
    + cbn [fst snd]. intros E. inversion E. subst.
      repeat split. do 2 eexists. reflexivity.
    + destruct (sys_utime w) as [[[]|[]] w1]; cbn [fst snd]; intros E;
        inversion E; subst; repeat split; do 2 eexists; reflexivity.
Qed.

Lemma release_and_extend_errors_witness :
  let w := world0 (Dir None) 2000 [] in
  let self := lock0 "tokA" true in
  let e :=
    FileLock.error LockExtendNotFoundError
      (lock_msg "file for lock " "job1" " does not exist") self in
  fst (fst (FileLock.extend self w)) = Raise e
  /\ snd (fst (FileLock.extend self w)) = self
  /\ isinstance e LockExtendError = true
  /\ isinstance e LockReleaseError = false.
Proof.
  intros w self e.
  assert (R : fst (fst (FileLock.extend self w)) = Raise e) by reflexivity.
  destruct (release_and_extend_errors self w e) as [_ H].
  destruct (H R) as (A & B & C & _).
  split; [exact R|]. split; [exact A|]. split; [exact B | exact C].
Defined.

(** ** The proxy of the [with] statement *)

(** X11.  Leaving a [with] block, whatever the world does:
    - [__exit__] never raises LockReleaseNotAcquiredError: on an object
      that is not Held it does nothing at all;
    - when it returns, the object is not Held;
    - when it raises, the exception is a LockReleaseError of a Held object,
      which stays Held. *)
Theorem proxy_exit_never_misuses_release (lock : FileLock.t) (w : World) :
  let r := fst (fst (Proxy.exit lock w)) in
  let lock' := snd (fst (Proxy.exit lock w)) in
  raises r LockReleaseNotAcquiredError = false
  /\ (FileLock._lock lock = false -> Proxy.exit lock w = (Return tt, lock, w))
  /\ (r = Return tt -> FileLock._lock lock' = false)
  /\ (forall e, r = Raise e ->
        isinstance e LockReleaseError = true
        /\ FileLock._lock lock = true /\ lock' = lock).
Proof.
  unfold Proxy.exit, FileLock.locked, FileLock.release.
  destruct (FileLock._lock lock) eqn:L; cbn [negb].
  - destruct (sys_remove w) as [[[]|[]] w1]; cbn [fst snd];
      repeat split; intros; try discriminate;
      match goal with
      | H : Raise _ = Raise _ |- _ => inversion H; subst; reflexivity
      | _ => idtac
      end.
  - cbn [fst snd]. repeat split; intros; try discriminate; assumption.
Qed.

Lemma proxy_exit_never_misuses_release_witness :
  let w := world0 (Dir None) 2000 [] in
  FileLock._lock (lock0 "tokA" false) = false
  /\ Proxy.exit (lock0 "tokA" false) w = (Return tt, lock0 "tokA" false, w)
  /\ raises (fst (fst (Proxy.exit (lock0 "tokA" true) w)))
            LockReleaseNotFoundError = true
  /\ FileLock._lock (snd (fst (Proxy.exit (lock0 "tokA" true) w))) = true.
Proof.
  intros w.
  assert (L : FileLock._lock (lock0 "tokA" false) = false) by reflexivity.
  destruct (proxy_exit_never_misuses_release (lock0 "tokA" false) w)
    as (_ & A & _).
  split; [exact L|]. split; [exact (A L)|]. split; reflexivity.
Defined.

(** X12.  A whole [with lock.acquire():] block.  The object is not Held and
    has no keeper recorded; [acquire] returns, in any world.  Then
    [__enter__] starts exactly one thread, records it and touches neither
    the file nor the Held flag; a second [__enter__] (a nested block on the
    same object) starts nothing; and if nothing disturbs the release,
    [__exit__] returns with the lease file gone and the object not Held. *)
Theorem with_block_keeps_and_releases
    (fuel : nat) (self self1 : FileLock.t) (tmo : option Z) (pi : Z)
    (w w1 : World) :
  FileLock._lock self = false ->
  FileLock._keeper self = None ->
  FileLock.acquire fuel self tmo pi w = Some (Return tt, self1, w1) ->
  let self2 := fst (Proxy.enter self1 w1) in
  let w2 := snd (Proxy.enter self1 w1) in
  self2 = FileLock.set_keeper (Some (threads w1)) self1
  /\ FileLock._lock self2 = true
  /\ threads w2 = S (threads w1)
  /\ fs w2 = fs w1
  /\ calls w2 = Thread_start :: calls w1
  /\ Proxy.enter self2 w2 = (self2, w2)
  /\ (calm (hd Idle (script w2)) = true ->
      exists w3,
        Proxy.exit self2 w2 = (Return tt, FileLock.set_lock false self2, w3)
        /\ lease w3 = None
        /\ threads w3 = threads w2).
Proof.
  intros L K A. destruct (acquire_held _ _ _ _ _ _ _ L A) as [-> F].
  unfold Proxy.enter, FileLock.keep.
  cbn [FileLock._keeper FileLock._lock FileLock.set_lock negb].
  rewrite K. cbn [sys_thread_start fst snd FileLock._keeper
    FileLock.set_keeper FileLock._lock negb].
  split; [reflexivity|]. split; [reflexivity|]. split; [reflexivity|].
  split; [reflexivity|]. split; [reflexivity|]. split; [reflexivity|].
  intros C. unfold Proxy.exit, FileLock.locked, FileLock.release, sys_remove.
  cbn [FileLock._lock FileLock.set_keeper negb].
  match goal with
  | |- context [enter os_remove ?x] =>
      destruct (enter_calm_head os_remove x C) as [En Fa];
      rewrite En, Fa
  end.
  cbn [fs]. rewrite F. eexists. split; [reflexivity|]. split; reflexivity.
Qed.

Lemma with_block_keeps_and_releases_witness :
  let w := world0 NoDir 2000 [] in
  let self := lock0 "tokA" false in
  let self1 := lock0 "tokA" true in
  let w1 :=
    mkWorld (Dir (Some (mkFile "tokA" 2000))) 2000 []
            [open_x "tokA"; os_makedirs; time_time] tokens 0 0 in
  let self2 := fst (Proxy.enter self1 w1) in
  let w2 := snd (Proxy.enter self1 w1) in
  FileLock._lock self = false
  /\ FileLock._keeper self = None
  /\ FileLock.acquire 1 self None 100 w = Some (Return tt, self1, w1)
  /\ calm (hd Idle (script w2)) = true
  /\ threads w2 = 1%nat
  /\ exists w3,
       Proxy.exit self2 w2 = (Return tt, FileLock.set_lock false self2, w3)
       /\ lease w3 = None
       /\ threads w3 = threads w2.
Proof.
  intros w self self1 w1 self2 w2.
  assert (L : FileLock._lock self = false) by reflexivity.
  assert (K : FileLock._keeper self = None) by reflexivity.
  assert (A : FileLock.acquire 1 self None 100 w = Some (Return tt, self1, w1))
    by (vm_compute; reflexivity).
  assert (C : calm (hd Idle (script w2)) = true) by reflexivity.
  destruct (with_block_keeps_and_releases 1 self self1 None 100 w w1 L K A)
    as (_ & _ & T & _ & _ & _ & X).
  split; [exact L|]. split; [exact K|]. split; [exact A|]. split; [exact C|].
  split; [exact T | exact (X C)].
Defined.

(** ** The keeper thread *)

Lemma extend_turn_quiet (self : FileLock.t) (w : World) (f : File) :
  quiet w ->
  FileLock._lock self = true ->
  fs w = Dir (Some f) ->
  0 <= FileLock.stale self / 5 ->
  exists w2,
    FileLock._extend_turn self w = (Return true, self, w2)
    /\ quiet w2
    /\ fs w2 = Dir (Some (mkFile (content f) (clock w2)))
    /\ clock w + FileLock.stale self / 5 <= clock w2
    /\ calls w2
       = os_utime :: time_sleep (FileLock.stale self / 5) :: calls w.
Proof.
  intros Q L F D. unfold FileLock._extend_turn, sys_sleep.
  apply Z.ltb_ge in D. rewrite D, (quiet_enter _ _ Q), L. cbn [negb].
  set (d := FileLock.stale self / 5) in *.
  set (w1 := after (time_sleep d) w).
  set (ws := mkWorld (fs w1) (clock w1 + d) (script w1) (calls w1)
                     (entropy w1) (drawn w1) (threads w1)).
  assert (Q1 : quiet ws) by (exact (quiet_after (time_sleep d) w Q)).
  assert (F1 : fs ws = Dir (Some f))
    by (cbn [fs ws]; unfold w1; rewrite fs_after; auto).
  unfold FileLock.extend. rewrite L. cbn [negb].
  rewrite (utime_quiet ws f Q1 F1). eexists. split; [reflexivity|].
  split; [apply quiet_set_fs, quiet_after, Q1|].
  split; [reflexivity|]. split; [|reflexivity].
  cbn [clock set_fs]. rewrite clock_after_head. cbn [clock ws script].
  unfold w1. rewrite clock_after_head.
  pose proof (lapse_nonneg (hd Idle (script w))).
  pose proof (lapse_nonneg (hd Idle (script (after (time_sleep d) w)))).
  lia.
Qed.

(** X13.  The keeper thread on a Held object whose lease file is there,
    with nobody else around and a stale threshold that is not negative.
    The thread never ends: after any number of turns it is still running.
    After each turn the lease file has its old content and a modification
    time equal to the clock, so its age starts again from zero; each turn
    takes at least [stale / 5] ticks. *)
Theorem keeper_keeps_lease_fresh (self : FileLock.t) (n : nat) :
  forall (w : World) (f : File),
  quiet w ->
  FileLock._lock self = true ->
  fs w = Dir (Some f) ->
  0 <= FileLock.stale self ->
  let wn := Keeper.world_after n self w in
  Keeper._extend n self w = None
  /\ quiet wn
  /\ ((0 < n)%nat -> fs wn = Dir (Some (mkFile (content f) (clock wn))))
  /\ clock w + Z.of_nat n * (FileLock.stale self / 5) <= clock wn.
Proof.
  intros w f Q L F S. revert w f Q F.
  assert (D : 0 <= FileLock.stale self / 5) by (apply Z.div_pos; lia).
  induction n as [|n IH]; intros w f Q F.
  - cbn. split; [reflexivity|]. split; [exact Q|]. split; lia.
  - destruct (extend_turn_quiet self w f Q L F D)
      as (w2 & T & Q2 & F2 & C2 & _).
    cbn [Keeper.world_after Keeper._extend]. rewrite T.
    destruct (IH w2 _ Q2 F2) as (E & Qn & Fn & Cn). cbn [content] in Fn.
    split; [exact E|]. split; [exact Qn|]. split.
    + intros _. destruct n as [|n]; [exact F2 | apply Fn; lia].
    + lia.
Qed.

Lemma keeper_keeps_lease_fresh_witness :
  let w := world0 (Dir (Some (mkFile "tokA" 1000))) 2000 [Pass 3] in
  let self := lock0 "tokA" true in
  let w2 := Keeper.world_after 2 self w in
  quiet w
  /\ FileLock._lock self = true
  /\ fs w = Dir (Some (mkFile "tokA" 1000))
  /\ 0 <= 60000
  /\ Keeper._extend 2 self w = None
  /\ fs w2 = Dir (Some (mkFile "tokA" 26003))
  /\ clock w2 = 26003.
Proof.
  intros w self w2.
  assert (Q : quiet w) by reflexivity.
  assert (L : FileLock._lock self = true) by reflexivity.
  assert (F : fs w = Dir (Some (mkFile "tokA" 1000))) by reflexivity.
  assert (S : 0 <= 60000) by lia.
  destruct (keeper_keeps_lease_fresh self 2 w _ Q L F S) as (E & _ & Fn & _).
  repeat (split; [assumption|]).
  assert (K : clock w2 = 26003) by (vm_compute; reflexivity).
  split; [|exact K]. rewrite <- K. exact (Fn (le_S _ _ (le_n 1))).
Defined.

(** X14.  The keeper thread once the lock was released.  On an object that
    is not Held (stale threshold not negative), whatever the world does, the
    thread ends at its next wake-up: it sleeps once, touches no file, and
    clears the recorded handle.  A [keep] on the object, Held again, then
    starts a new thread. *)
Theorem keeper_ends_after_release
    (fuel : nat) (self : FileLock.t) (w : World) :
  FileLock._lock self = false ->
  0 <= FileLock.stale self ->
  exists w',
    Keeper._extend (S fuel) self w
    = Some (Return tt, FileLock.set_keeper None self, w')
    /\ calls w' = time_sleep (FileLock.stale self / 5) :: calls w
    /\ threads w' = threads w
    /\ forall w'',
         FileLock.keep
           (FileLock.set_lock true (FileLock.set_keeper None self)) w''
         = (Some (threads w''),
            FileLock.set_keeper (Some (threads w''))
              (FileLock.set_lock true (FileLock.set_keeper None self)),
            snd (sys_thread_start w'')).
Proof.
  intros L S.
  assert (D : 0 <= FileLock.stale self / 5) by (apply Z.div_pos; lia).
  apply Z.ltb_ge in D.
  cbn [Keeper._extend]. unfold FileLock._extend_turn, sys_sleep.
  rewrite D, L. cbn [negb].
  destruct (enter (time_sleep (FileLock.stale self / 5)) w) as [bad w1] eqn:En.
  apply enter_frame in En. destruct En as (C & _ & T & _).
  eexists. split; [reflexivity|]. split; [exact C|]. split; [exact T|].
  reflexivity.
Qed.

Lemma keeper_ends_after_release_witness :
  let w := world0 (Dir None) 2000 [] in
  let self := FileLock.set_keeper (Some 0%nat) (lock0 "tokA" false) in
  FileLock._lock self = false
  /\ 0 <= 60000
  /\ exists w',
       Keeper._extend 1 self w = Some (Return tt, lock0 "tokA" false, w')
       /\ calls w' = [time_sleep 12000].
Proof.
  intros w self.
  assert (L : FileLock._lock self = false) by reflexivity.
  assert (S : 0 <= 60000) by lia.
  split; [exact L|]. split; [exact S|].
  destruct (keeper_ends_after_release 0 self w L S) as (w' & A & C & _).
  exists w'. split; [exact A | exact C].
Defined.

Lemma extend_turn_held (self : FileLock.t) (w : World) :
  FileLock._lock self = true ->
  exists r w1,
    FileLock._extend_turn self w = (r, self, w1)
    /\ (r = Return true
        \/ exists e, r = Raise e
                     /\ (isinstance e LockExtendError = true
                         \/ e = ValueError)).
Proof.
  intros L. unfold FileLock._extend_turn, FileLock.extend. rewrite L.
  cbn [negb].
  destruct (sys_sleep (FileLock.stale self / 5) w) as [[[]|e] ws] eqn:Sl.
  - destruct (sys_utime ws) as [[[]|[]] wu]; do 2 eexists;
      (split; [reflexivity|]);
      first [ left; reflexivity
            | right; eexists; split; [reflexivity | left; reflexivity] ].
  - do 2 eexists. split; [reflexivity|]. right. exists e.
    split; [reflexivity|]. right.
    unfold sys_sleep in Sl. destruct (_ <? 0).
    + now inversion Sl.
    + destruct (enter _ w). discriminate.
Qed.

(** X15.  The keeper thread of a Held object, whatever the world does.  On
    its own it never ends normally: if it ends, it is by an exception, a
    LockExtendError (the lease file is gone, say) or the ValueError of a
    negative sleep, and the object is as it was.  The handle of the dead
    thread is still recorded, so [keep] goes on returning it and never
    starts a thread again. *)
Theorem keeper_death_is_not_noticed (fuel : nat) (self : FileLock.t) :
  forall (w w' : World) (r : outcome unit) (self' : FileLock.t),
  FileLock._lock self = true ->
  Keeper._extend fuel self w = Some (r, self', w') ->
  self' = self
  /\ (exists e, r = Raise e
                /\ (isinstance e LockExtendError = true \/ e = ValueError))
  /\ (forall k w'',
        FileLock._keeper self = Some k ->
        FileLock.keep self' w'' = (Some k, self', w'')).
Proof.
  induction fuel as [|n IH]; intros w w' r self' L; cbn [Keeper._extend];
    [discriminate|].
  destruct (extend_turn_held self w L) as (r1 & w1 & T & [->|(e & -> & H)]);
    rewrite T.
  - apply IH, L.
  - intros E. inversion E. subst. split; [reflexivity|].
    split; [exists e; split; [reflexivity | exact H]|].
    intros k w'' K. unfold FileLock.keep. now rewrite K.
Qed.

Lemma keeper_death_is_not_noticed_witness :
  let w := world0 (Dir (Some (mkFile "tokA" 1000))) 2000 [Idle; Unlink] in
  let self := FileLock.set_keeper (Some 0%nat) (lock0 "tokA" true) in
  let e :=
    FileLock.error LockExtendNotFoundError
      (lock_msg "file for lock " "job1" " does not exist") self in
  let w' :=
    mkWorld (Dir None) 14000 [] [os_utime; time_sleep 12000] tokens 0 0 in
  FileLock._lock self = true
  /\ Keeper._extend 3 self w = Some (Raise e, self, w')
  /\ isinstance e LockExtendError = true
  /\ FileLock.keep self w' = (Some 0%nat, self, w').
Proof.
  intros w self e w'.
  assert (L : FileLock._lock self = true) by reflexivity.
  assert (A : Keeper._extend 3 self w = Some (Raise e, self, w'))
    by (vm_compute; reflexivity).
  destruct (keeper_death_is_not_noticed 3 self w w' _ _ L A) as (_ & _ & K).
  split; [exact L|]. split; [exact A|]. split; [reflexivity|].
  exact (K 0%nat w' eq_refl).
Defined.

(** ** A lease handed over *)

Lemma open_r_quiet (w : World) (f : File) :
  quiet w -> fs w = Dir (Some f) ->
  sys_open_r w = (inr (content f), after open_r w).
Proof.
  intros Q F. unfold sys_open_r. rewrite (quiet_enter _ _ Q).
  rewrite (fs_after _ _ Q), F. reflexivity.
Qed.

(** X16.  A lease handed over to another lock object.  The lease file
    holds the token [p] (not empty) and nobody else touches it.  The object
    made with [persist=p] is Held without having acquired anything and the
    file is as it was; for this object [acquire] is a no-op, and its
    [release] removes the file: in all, the file was read once and removed
    once. *)
Theorem persist_handover_can_release
    (encrypt : string -> string) (h : Host) (nm : string) (tmo stl : Z)
    (p : string) (w : World) (f : File) :
  p <> EmptyString ->
  quiet w ->
  fs w = Dir (Some f) ->
  content f = p ->
  exists self w1 w2,
    FileLock.init encrypt h nm tmo stl (Some p) w = (Return self, w1)
    /\ FileLock._lock self = true
    /\ FileLock.id self = p
    /\ fs w1 = Dir (Some f)
    /\ (forall fuel t pi,
          FileLock.acquire fuel self t pi w1 = Some (Return tt, self, w1))
    /\ FileLock.release self w1
       = (Return tt, FileLock.set_lock false self, w2)
    /\ fs w2 = Dir None
    /\ calls w2 = [os_remove; open_r] ++ calls w.
Proof.
  intros NE Q F C.
  assert (Q1 : quiet (after open_r w)) by (apply quiet_after, Q).
  assert (F1 : fs (after open_r w) = Dir (Some f))
    by (rewrite fs_after; auto).
  destruct (enter_calm_head os_remove (after open_r w)) as [En Fa].
  { unfold quiet in Q1. destruct (script (after open_r w)) as [|e l];
      [reflexivity|]. cbn in Q1. apply andb_true_iff in Q1. apply Q1. }
  do 3 eexists. split.
  - unfold FileLock.init. rewrite (truthy_nonempty p NE).
    rewrite (open_r_quiet w f Q F), C, String.eqb_refl. reflexivity.
  - cbn [FileLock._lock FileLock.id].
    split; [reflexivity|]. split; [reflexivity|]. split; [exact F1|].
    split; [reflexivity|].
    unfold FileLock.release, sys_remove. cbn [FileLock._lock negb].
    rewrite En, Fa, F1. split; [reflexivity|]. split; reflexivity.
Qed.

Lemma persist_handover_can_release_witness :
  let w := world0 (Dir (Some (mkFile "tokA" 1000))) 2000 [Pass 4] in
  "tokA"%string <> EmptyString
  /\ quiet w
  /\ fs w = Dir (Some (mkFile "tokA" 1000))
  /\ exists self w1 w2,
       FileLock.init digest0 host0 "job1" 5000 60000 (Some "tokA"%string) w
       = (Return self, w1)
       /\ FileLock._lock self = true
       /\ FileLock.release self w1
          = (Return tt, FileLock.set_lock false self, w2)
       /\ fs w2 = Dir None.
Proof.
  intros w.
  assert (NE : "tokA"%string <> EmptyString) by discriminate.
  assert (Q : quiet w) by reflexivity.
  assert (F : fs w = Dir (Some (mkFile "tokA" 1000))) by reflexivity.
  split; [exact NE|]. split; [exact Q|]. split; [exact F|].
  destruct (persist_handover_can_release digest0 host0 "job1"%string
              5000 60000 "tokA"%string w _ NE Q F eq_refl)
    as (self & w1 & w2 & I & L & _ & _ & _ & R & D & _).
  exists self, w1, w2. split; [exact I|]. split; [exact L|].
  split; [exact R | exact D].
Defined.

(** ** BooksProxy *)

Lemma dict_get_set_same {Book : Type} (d : BooksProxy.dict Book)
    (k : string) (v : BooksProxy.slot Book) :
  BooksProxy.dict_get Book (BooksProxy.dict_set Book d k v) k = Some v.
Proof.
  induction d as [|[k0 x] d IH]; cbn.
  - now rewrite String.eqb_refl.
  - destruct (String.eqb k0 k) eqn:E; cbn; rewrite E; [reflexivity|exact IH].
Qed.

Lemma dict_get_set_other {Book : Type} (d : BooksProxy.dict Book)
    (k k' : string) (v : BooksProxy.slot Book) :
  k' <> k ->
  BooksProxy.dict_get Book (BooksProxy.dict_set Book d k v) k'
  = BooksProxy.dict_get Book d k'.
Proof.
  intros N. induction d as [|[k0 x] d IH]; cbn.
  - destruct (String.eqb k k') eqn:E; [|reflexivity].
    apply String.eqb_eq in E. congruence.
  - destruct (String.eqb k0 k) eqn:E; cbn.
    + apply String.eqb_eq in E. subst k0.
      destruct (String.eqb k k') eqn:E'; [|reflexivity].
      apply String.eqb_eq in E'. congruence.
    + destruct (String.eqb k0 k'); [reflexivity | exact IH].
Qed.

Lemma dict_keys_set_present {Book : Type} (d : BooksProxy.dict Book)
    (k : string) (v : BooksProxy.slot Book) :
  BooksProxy.dict_get Book d k <> None ->
  BooksProxy.keys Book (BooksProxy.dict_set Book d k v)
  = BooksProxy.keys Book d.
Proof.
  unfold BooksProxy.keys. induction d as [|[k0 x] d IH]; cbn.
  - congruence.
  - destruct (String.eqb k0 k) eqn:E; cbn; [reflexivity|].
    intros H. now rewrite IH.
Qed.

Lemma dict_get_keys {Book : Type} (d : BooksProxy.dict Book) (k : string) :
  BooksProxy.dict_get Book d k = None <-> ~ In k (BooksProxy.keys Book d).
Proof.
  unfold BooksProxy.keys. induction d as [|[k0 x] d IH]; cbn.
  - tauto.
  - destruct (String.eqb k0 k) eqn:E.
    + apply String.eqb_eq in E. split; [discriminate | tauto].
    + apply String.eqb_neq in E. rewrite IH. tauto.
Qed.

(** X17.  [BooksProxy.__getitem__] builds a book at most once per key.
    For every proxy and key, a second retrieval returns what the first
    returned and leaves the proxy as the first left it.  The first
    retrieval of a placeholder returns [Book(host, key)] and stores it; a
    stored book is returned as it is; a key that is not in the dict is a
    KeyError and changes nothing. *)
Theorem getitem_builds_once
    (Book : Type) (new_book : Host -> string -> Book)
    (self : BooksProxy.t Book) (key : string) :
  let r1 := fst (BooksProxy.getitem Book new_book self key) in
  let self1 := snd (BooksProxy.getitem Book new_book self key) in
  BooksProxy.getitem Book new_book self1 key = (r1, self1)
  /\ (BooksProxy.dict_get Book (BooksProxy.data Book self) key
      = Some (BooksProxy.NotImplemented Book) ->
      r1 = inr (new_book (BooksProxy.host Book self) key)
      /\ BooksProxy.dict_get Book (BooksProxy.data Book self1) key
         = Some (BooksProxy.Made Book
                   (new_book (BooksProxy.host Book self) key)))
  /\ (forall b,
        BooksProxy.dict_get Book (BooksProxy.data Book self) key
        = Some (BooksProxy.Made Book b) ->
        r1 = inr b /\ self1 = self)
  /\ (~ In key (BooksProxy.keys Book (BooksProxy.data Book self)) ->
      r1 = inl (BooksProxy.key_error key) /\ self1 = self).
Proof.
  unfold BooksProxy.getitem.
  destruct (BooksProxy.dict_get Book (BooksProxy.data Book self) key)
    as [[|b]|] eqn:G; cbn [fst snd BooksProxy.data BooksProxy.host].
  - rewrite dict_get_set_same. split; [reflexivity|].
    split; [intros _; split; reflexivity|].
    split; [discriminate|].
    intros N. apply dict_get_keys in N. congruence.
  - rewrite G. split; [reflexivity|]. split; [discriminate|].
    split; [intros b' E; inversion E; now split|].
    intros N. apply dict_get_keys in N. congruence.
  - rewrite G. split; [reflexivity|]. split; [discriminate|].
    split; [discriminate|]. now split.
Qed.

Lemma getitem_builds_once_witness :
  let new_book := fun (h : Host) (k : string) => (locks h ++ "/" ++ k)%string in
  let self := BooksProxy.init string host0 [""; "id1"]%string in
  let r1 := fst (BooksProxy.getitem string new_book self "id1") in
  let self1 := snd (BooksProxy.getitem string new_book self "id1") in
  BooksProxy.dict_get string (BooksProxy.data string self) "id1"
  = Some (BooksProxy.NotImplemented string)
  /\ r1 = inr "/srv/book/.wsb/locks/id1"%string
  /\ BooksProxy.getitem string new_book self1 "id1" = (r1, self1)
  /\ ~ In "id9"%string (BooksProxy.keys string (BooksProxy.data string self))
  /\ fst (BooksProxy.getitem string new_book self "id9")
     = inl (BooksProxy.key_error "id9").
Proof.
  intros new_book self r1 self1.
  assert (G : BooksProxy.dict_get string (BooksProxy.data string self) "id1"
              = Some (BooksProxy.NotImplemented string)) by reflexivity.
  assert (N : ~ In "id9"%string
                (BooksProxy.keys string (BooksProxy.data string self))).
  { cbn. intros [H|[H|[]]]; discriminate H. }
  destruct (getitem_builds_once string new_book self "id1")
    as (I & A & _).
  destruct (getitem_builds_once string new_book self "id9")
    as (_ & _ & _ & B).
  split; [exact G|]. split; [exact (proj1 (A G))|]. split; [exact I|].
  split; [exact N | exact (proj1 (B N))].
Defined.

(** X18.  [BooksProxy.__getitem__] changes nothing but the slot it was
    asked for: the keys and their order, the host, and what is stored under
    every other key stay as they were. *)
Theorem getitem_leaves_other_keys
    (Book : Type) (new_book : Host -> string -> Book)
    (self : BooksProxy.t Book) (key : string) :
  let self1 := snd (BooksProxy.getitem Book new_book self key) in
  BooksProxy.keys Book (BooksProxy.data Book self1)
  = BooksProxy.keys Book (BooksProxy.data Book self)
  /\ BooksProxy.host Book self1 = BooksProxy.host Book self
  /\ (forall k',
        k' <> key ->
        BooksProxy.dict_get Book (BooksProxy.data Book self1) k'
        = BooksProxy.dict_get Book (BooksProxy.data Book self) k').
Proof.
  unfold BooksProxy.getitem.
  destruct (BooksProxy.dict_get Book (BooksProxy.data Book self) key)
    as [[|b]|] eqn:G; cbn [fst snd BooksProxy.data BooksProxy.host];
    try (repeat split; fail).
  split; [apply dict_keys_set_present; congruence|].
  split; [reflexivity|]. intros k' N. now apply dict_get_set_other.
Qed.

Lemma getitem_leaves_other_keys_witness :
  let new_book := fun (h : Host) (k : string) => (locks h ++ "/" ++ k)%string in
  let self := BooksProxy.init string host0 [""; "id1"]%string in
  let self1 := snd (BooksProxy.getitem string new_book self "id1") in
  EmptyString <> "id1"%string
  /\ BooksProxy.keys string (BooksProxy.data string self1)
     = [""; "id1"]%string
  /\ BooksProxy.dict_get string (BooksProxy.data string self1) ""
     = Some (BooksProxy.NotImplemented string).
Proof.
  intros new_book self self1.
  assert (N : EmptyString <> "id1"%string) by discriminate.
  destruct (getitem_leaves_other_keys string new_book self "id1")
    as (K & _ & O).
  split; [exact N|]. split; [exact K|].
  exact (O EmptyString N).
Defined.

Lemma dict_keys_set_absent {Book : Type} (d : BooksProxy.dict Book)
    (k : string) (v : BooksProxy.slot Book) :
  BooksProxy.dict_get Book d k = None ->
  BooksProxy.keys Book (BooksProxy.dict_set Book d k v)
  = BooksProxy.keys Book d ++ [k].
Proof.
  unfold BooksProxy.keys. induction d as [|[k0 x] d IH]; cbn.
  - reflexivity.
  - destruct (String.eqb k0 k) eqn:E; cbn; [discriminate|].
    intros H. now rewrite IH.
Qed.

Lemma dict_set_nodup {Book : Type} (d : BooksProxy.dict Book)
    (k : string) (v : BooksProxy.slot Book) :
  NoDup (BooksProxy.keys Book d) ->
  NoDup (BooksProxy.keys Book (BooksProxy.dict_set Book d k v)).
Proof.
  intros N. destruct (BooksProxy.dict_get Book d k) eqn:G.
  - rewrite dict_keys_set_present; [exact N | congruence].
  - rewrite (dict_keys_set_absent d k v G).
    apply dict_get_keys in G.
    apply NoDup_rev in N. rewrite <- (rev_involutive (_ ++ [k])).
    apply NoDup_rev. rewrite rev_app_distr. cbn. constructor; [|exact N].
    now rewrite <- in_rev.
Qed.

Lemma init_fold {Book : Type} (ids : list string) :
  forall (d : BooksProxy.dict Book) (k : string),
  let d' :=
    fold_left (fun d book_id =>
                 BooksProxy.dict_set Book d book_id
                   (BooksProxy.NotImplemented Book)) ids d in
  (In k ids ->
   BooksProxy.dict_get Book d' k = Some (BooksProxy.NotImplemented Book))
  /\ (~ In k ids ->
      BooksProxy.dict_get Book d' k = BooksProxy.dict_get Book d k)
  /\ (NoDup (BooksProxy.keys Book d) -> NoDup (BooksProxy.keys Book d')).
Proof.
  induction ids as [|a ids IH]; intros d k; cbn [fold_left].
  - cbn. tauto.
  - destruct (IH (BooksProxy.dict_set Book d a
                    (BooksProxy.NotImplemented Book)) k) as (I1 & I2 & I3).
    cbv zeta. split; [|split].
    + intros [->|H].
      * destruct (in_dec string_dec k ids) as [H|H]; [now apply I1|].
        rewrite (I2 H). apply dict_get_set_same.
      * now apply I1.
    + intros N. rewrite I2 by (cbn in N; tauto).
      apply dict_get_set_other. cbn in N. intros ->. tauto.
    + intros N. apply I3, dict_set_nodup, N.
Qed.

(** X19.  [BooksProxy.__init__] builds no book.  After it, the keys of the
    dict are the book ids of the configuration, each once, all with the
    placeholder.  So the first retrieval of a configured id returns
    [Book(host, id)], and the retrieval of any other key is a KeyError. *)
Theorem init_is_lazy
    (Book : Type) (new_book : Host -> string -> Book)
    (h : Host) (book_ids : list string) (key : string) :
  let self := BooksProxy.init Book h book_ids in
  NoDup (BooksProxy.keys Book (BooksProxy.data Book self))
  /\ (In key (BooksProxy.keys Book (BooksProxy.data Book self))
      <-> In key book_ids)
  /\ (In key book_ids ->
      BooksProxy.dict_get Book (BooksProxy.data Book self) key
      = Some (BooksProxy.NotImplemented Book)
      /\ fst (BooksProxy.getitem Book new_book self key)
         = inr (new_book h key))
  /\ (~ In key book_ids ->
      BooksProxy.getitem Book new_book self key
      = (inl (BooksProxy.key_error key), self)).
Proof.
  intros self.
  destruct (init_fold (Book := Book) book_ids [] key) as (I1 & I2 & I3).
  cbv zeta in I1, I2, I3.
  assert (Y : In key book_ids ->
              BooksProxy.dict_get Book (BooksProxy.data Book self) key
              = Some (BooksProxy.NotImplemented Book)) by exact I1.
  assert (Z : ~ In key book_ids ->
              BooksProxy.dict_get Book (BooksProxy.data Book self) key
              = None) by exact I2.
  split; [apply I3; constructor|]. split; [|split].
  - destruct (in_dec string_dec key book_ids) as [H|H].
    + split; [tauto|]. intros _.
      destruct (in_dec string_dec key
                  (BooksProxy.keys Book (BooksProxy.data Book self)))
        as [K|K]; [exact K|].
      apply dict_get_keys in K. rewrite (Y H) in K. discriminate.
    + split; [|tauto]. intros K. exfalso.
      apply (proj1 (dict_get_keys _ _) (Z H)), K.
  - intros H. split; [exact (Y H)|].
    unfold BooksProxy.getitem. now rewrite (Y H).
  - intros H. unfold BooksProxy.getitem. now rewrite (Z H).
Qed.

Lemma init_is_lazy_witness :
  let new_book := fun (h : Host) (k : string) => (locks h ++ "/" ++ k)%string in
  let self := BooksProxy.init string host0 [""; "id1"; ""]%string in
  In "id1"%string [""; "id1"; ""]%string
  /\ ~ In "id9"%string [""; "id1"; ""]%string
  /\ BooksProxy.keys string (BooksProxy.data string self) = [""; "id1"]%string
  /\ fst (BooksProxy.getitem string new_book self "id1")
     = inr "/srv/book/.wsb/locks/id1"%string
  /\ BooksProxy.getitem string new_book self "id9"
     = (inl (BooksProxy.key_error "id9"), self).
Proof.
  intros new_book self.
  assert (I : In "id1"%string [""; "id1"; ""]%string) by (cbn; tauto).
  assert (N : ~ In "id9"%string [""; "id1"; ""]%string).
  { cbn. intros [H|[H|[H|[]]]]; discriminate H. }
  destruct (init_is_lazy string new_book host0 [""; "id1"; ""]%string "id1")
    as (_ & _ & A & _).
  destruct (init_is_lazy string new_book host0 [""; "id1"; ""]%string "id9")
    as (_ & _ & _ & B).
  split; [exact I|]. split; [exact N|]. split; [reflexivity|].
  split; [exact (proj2 (A I)) | exact (B N)].
Defined.

(** ** Static files *)

(** X20.  [Host.get_static_file] returns the first candidate, in the order
    of [self.statics], that is a file: it returns [os.path.join(i,
    filepath)] exactly when [i] is a directory of the list whose candidate
    is a file while the candidates of all directories before it are not;
    it returns None exactly when no candidate is a file. *)
Theorem get_static_file_first_match
    (join : string -> string -> string) (isfile : string -> bool)
    (statics : list string) (filepath : string) :
  (forall p,
     get_static_file join isfile statics filepath = Some p <->
     exists pre i post,
       statics = pre ++ i :: post
       /\ p = join i filepath
       /\ isfile p = true
       /\ Forall (fun j => isfile (join j filepath) = false) pre)
  /\ (get_static_file join isfile statics filepath = None <->
      Forall (fun i => isfile (join i filepath) = false) statics).
Proof.
  induction statics as [|a l [IH1 IH2]]; cbn [get_static_file].
  - split.
    + intros p. split; [discriminate|].
      intros (pre & i & post & E & _). destruct pre; discriminate E.
    + split; [constructor | reflexivity].
  - destruct (isfile (join a filepath)) eqn:A.
    + split.
      * intros p. split.
        -- intros E. inversion E. subst. exists [], a, l. repeat split; auto.
        -- intros (pre & i & post & E & -> & I & P).
           destruct pre as [|b pre]; cbn in E; inversion E; subst;
             [reflexivity|].
           inversion P. congruence.
      * split; [discriminate|]. intros F. inversion F. congruence.
    + split.
      * intros p. rewrite IH1. split.
        -- intros (pre & i & post & -> & -> & I & P).
           exists (a :: pre), i, post. repeat split; auto.
        -- intros (pre & i & post & E & -> & I & P).
           destruct pre as [|b pre]; cbn in E; inversion E; subst;
             [congruence|].
           inversion P. subst. exists pre, i, post. repeat split; auto.
      * rewrite IH2. split; [intros F; constructor; auto|].
        intros F. now inversion F.
Qed.

Lemma get_static_file_first_match_witness :
  let join := fun a b : string => (a ++ "/" ++ b)%string in
  let isfile := fun p : string =>
    (String.eqb p "user/static/a.css" || String.eqb p "default/static/a.css")%bool in
  let statics := ["root/static"; "user/static"; "default/static"]%string in
  statics = ["root/static"]%string ++ "user/static"%string
            :: ["default/static"]%string
  /\ isfile "user/static/a.css"%string = true
  /\ Forall (fun j => isfile (join j "a.css"%string) = false)
            ["root/static"]%string
  /\ get_static_file join isfile statics "a.css" = Some "user/static/a.css"%string
  /\ Forall (fun i => isfile (join i "b.css"%string) = false) statics
  /\ get_static_file join isfile statics "b.css" = None.
Proof.
  intros join isfile statics.
  assert (E : statics = ["root/static"]%string ++ "user/static"%string
                        :: ["default/static"]%string) by reflexivity.
  assert (I : isfile "user/static/a.css"%string = true) by reflexivity.
  assert (P : Forall (fun j => isfile (join j "a.css"%string) = false)
                     ["root/static"]%string)
    by (constructor; [reflexivity | constructor]).
  assert (N : Forall (fun i => isfile (join i "b.css"%string) = false) statics)
    by (repeat constructor).
  destruct (get_static_file_first_match join isfile statics "a.css") as [A _].
  destruct (get_static_file_first_match join isfile statics "b.css") as [_ B].
  split; [exact E|]. split; [exact I|]. split; [exact P|].
  split; [|split; [exact N | exact (proj2 B N)]].
  apply (proj2 (A _)). exists ["root/static"]%string, "user/static"%string,
    ["default/static"]%string. repeat split; assumption.
Defined.
